(** * Shallow embedding of the storefront coordination layer

    Components of [src/assets/*.js] and [src/unnamed/part_00*]: the quantity
    selector, the debounced cart line-item updates, the overlay lifecycle
    shared by the drawers, the cart drawer's stale flag and section swap, the
    filter drawer's fragment apply and URL update, the product form's
    add-to-cart error path and the request-id guard of the fragment fetches.

    Conventions: a JavaScript number read with [parseInt] is [option Z]
    ([None] is NaN); DOM elements are identified by [nat]; an asynchronous
    method is split at its [await]s into the steps the event loop runs. *)

From Stdlib Require Import ZArith List String Ascii Bool Lia.
Import ListNotations.
Open Scope Z_scope.

(* ------------------------------------------------------------------ *)
(** ** QuantitySelector ([src/assets/cart-drawer.js], lines 238-268) *)

Module QuantitySelector.

(** [parseInt(attr) || d]: NaN and 0 are both falsy, so both give [d]. *)
Definition parse_or (attr : option Z) (d : Z) : Z :=
  match attr with
  | Some z => if Z.eqb z 0 then d else z
  | None => d
  end.

Record t := mk {
  min : Z;
  max : Z;
  value : option Z  (** [parseInt(this.input.value)] *)
}.

(** [connectedCallback]: [this.min = parseInt(this.input.min) || 0],
    [this.max = parseInt(this.input.max) || 99]. *)
Definition connected (min_attr max_attr : option Z) (v : option Z) : t :=
  mk (parse_or min_attr 0) (parse_or max_attr 99) v.

(** [Math.max] / [Math.min] on numbers that may be NaN. *)
Definition js_max (a b : option Z) : option Z :=
  match a, b with Some x, Some y => Some (Z.max x y) | _, _ => None end.
Definition js_min (a b : option Z) : option Z :=
  match a, b with Some x, Some y => Some (Z.min x y) | _, _ => None end.

(** [clamp()]: NaN becomes [min], then [Math.min(max, Math.max(min, val))]. *)
Definition clamp (s : t) : t :=
  let val := match value s with Some z => z | None => min s end in
  mk (min s) (max s) (Some (Z.min (max s) (Z.max (min s) val))).

(** The assignment of [update(delta)]:
    [Math.min(this.max, Math.max(this.min, parseInt(this.input.value) + delta))]. *)
Definition update_assign (delta : Z) (s : t) : t :=
  mk (min s) (max s)
     (js_min (Some (max s))
        (js_max (Some (min s)) (option_map (fun v => v + delta) (value s)))).

(** [update(delta)] then dispatches a synchronous [change] event on the
    input, whose listener (registered in [connectedCallback]) runs [clamp()]. *)
Definition update (delta : Z) (s : t) : t := clamp (update_assign delta s).

Inductive op := Update (delta : Z) | Clamp.

Definition step (s : t) (o : op) : t :=
  match o with Update d => update d s | Clamp => clamp s end.

Definition run (s : t) (ops : list op) : t := fold_left step ops s.

Definition in_range (s : t) : Prop :=
  exists v, value s = Some v /\ min s <= v <= max s.

End QuantitySelector.

(* ------------------------------------------------------------------ *)
(** ** CartItems.debouncedUpdate ([src/assets/cart-items.js], lines 56-61)

    The component owns one timer handle [this.debounceTimer]. Time is in
    milliseconds; a pending timer is its deadline and the arguments its
    callback closes over. *)

Module CartItemsDebounce.

Definition delay : Z := 300.

Record t := mk {
  debounceTimer : option (Z * (string * Z));  (** deadline, (key, quantity) *)
  executed : list (string * Z)                 (** [updateItem] calls made *)
}.

Definition init : t := mk None [].

(** The event loop runs a timer that is due before the next event at [now]. *)
Definition advance (now : Z) (s : t) : t :=
  match debounceTimer s with
  | Some (d, call) =>
      if d <=? now then mk None (executed s ++ [call]) else s
  | None => s
  end.

(** [debouncedUpdate(key, quantity)] at time [now]:
    [clearTimeout(this.debounceTimer); this.debounceTimer = setTimeout(.., 300)]. *)
Definition debouncedUpdate (now : Z) (key : string) (quantity : Z) (s : t) : t :=
  let s := advance now s in
  mk (Some (now + delay, (key, quantity))) (executed s).

(** A call of [debouncedUpdate]: time, key, quantity. *)
Definition call := (Z * string * Z)%type.

Definition run (calls : list call) (s : t) : t :=
  fold_left (fun s '(now, key, q) => debouncedUpdate now key q s) calls s.

(** Let every pending timer expire. *)
Definition flush (s : t) : list (string * Z) :=
  match debounceTimer s with
  | Some (_, c) => executed s ++ [c]
  | None => executed s
  end.

(** Consecutive calls each less than [delay] after the previous one. *)
Fixpoint rapid (prev : Z) (calls : list call) : Prop :=
  match calls with
  | [] => True
  | (now, _, _) :: rest => prev <= now < prev + delay /\ rapid now rest
  end.

(** The arguments of the last call of a sequence. *)
Definition last_args (c : string * Z) (calls : list call) : string * Z :=
  fold_left (fun _ '(_, k, q) => (k, q)) calls c.

End CartItemsDebounce.

(* ------------------------------------------------------------------ *)
(** ** Request-id guard of the fragment fetches

    [ProductForm.renderVariantSections] ([src/assets/product-form.js],
    lines 109-136) and [SearchDrawer.fetchResults] ([src/unnamed/part_002],
    lines 139-159) share one shape:
<<
    const id = ++this.counter;  add is-loading
    const response = await fetch(..);                       // step 1
    if (!response.ok || id !== this.counter) return;
    const body = await response.text() / .json();           // step 2
    render(body);
    finally: if (id === this.counter) remove is-loading
>>
    A request is kept by the consumer while one of its two [await]s is
    pending. The DOM region records the request whose response it shows. *)

Module FragmentGuard.

Inductive stage := AwaitFetch | AwaitBody.

Record request := req { token : nat; payload : nat; stage_of : stage }.

Record t := mk {
  counter : nat;              (** [renderRequestId] / [requestId] *)
  loading : bool;             (** the [is-loading] class *)
  shown : option nat;         (** payload whose response the DOM shows *)
  inflight : list request
}.

Definition init : t := mk 0 false None [].

Inductive event :=
  | Issue (p : nat)               (** the method is called for payload [p] *)
  | FetchDone (tok : nat) (ok : bool)  (** [await fetch] resumes *)
  | FetchFail (tok : nat)          (** [fetch] rejects *)
  | BodyDone (tok : nat).          (** [await response.text()] resumes *)

Fixpoint find_req (tok : nat) (st : stage) (l : list request) : option request :=
  match l with
  | [] => None
  | r :: l' =>
      if Nat.eqb (token r) tok && match stage_of r, st with
                                  | AwaitFetch, AwaitFetch | AwaitBody, AwaitBody => true
                                  | _, _ => false end
      then Some r else find_req tok st l'
  end.

Definition drop (tok : nat) (l : list request) : list request :=
  filter (fun r => negb (Nat.eqb (token r) tok)) l.

(** The [finally] block. *)
Definition finish (tok : nat) (s : t) : t :=
  mk (counter s) (if Nat.eqb tok (counter s) then false else loading s)
     (shown s) (drop tok (inflight s)).

Definition step (s : t) (e : event) : t :=
  match e with
  | Issue p =>
      let id := S (counter s) in
      mk id true (shown s) (req id p AwaitFetch :: inflight s)
  | FetchDone tok ok =>
      match find_req tok AwaitFetch (inflight s) with
      | None => s
      | Some r =>
          if negb ok || negb (Nat.eqb tok (counter s)) then finish tok s
          else mk (counter s) (loading s) (shown s)
                  (req tok (payload r) AwaitBody :: drop tok (inflight s))
      end
  | FetchFail tok =>
      match find_req tok AwaitFetch (inflight s) with
      | None => s
      | Some _ => finish tok s
      end
  | BodyDone tok =>
      match find_req tok AwaitBody (inflight s) with
      | None => s
      | Some r =>
          finish tok (mk (counter s) (loading s) (Some (payload r)) (inflight s))
      end
  end.

Definition run (s : t) (es : list event) : t := fold_left step es s.

End FragmentGuard.

(* ------------------------------------------------------------------ *)
(** ** A small DOM

    A root is the list, in document order, of the elements the components
    address by selector. An element's content is a flat list of text and
    markup pieces, so that [innerHTML] (all pieces) and [textContent] (the
    text pieces) can be told apart. *)

Module Dom.

Inductive piece := Txt (s : string) | Markup (s : string).

Record element := el {
  sel : string;          (** the selector the element matches *)
  hidden : bool;         (** the [hidden] attribute *)
  kids : list piece      (** its content *)
}.

Definition root := list element.

(** [root.querySelector(sel)]: the first match. *)
Fixpoint querySelector (s : string) (r : root) : option element :=
  match r with
  | [] => None
  | e :: r' => if String.eqb (sel e) s then Some e else querySelector s r'
  end.

(** Apply [f] to the element [querySelector(s)] returns. *)
Fixpoint modify (s : string) (f : element -> element) (r : root) : root :=
  match r with
  | [] => []
  | e :: r' => if String.eqb (sel e) s then f e :: r' else e :: modify s f r'
  end.

Definition set_innerHTML (ks : list piece) (e : element) : element :=
  el (sel e) (hidden e) ks.

Definition set_hidden (b : bool) (e : element) : element :=
  el (sel e) b (kids e).

Fixpoint text_of (ks : list piece) : string :=
  match ks with
  | [] => ""
  | Txt s :: ks' => s ++ text_of ks'
  | Markup _ :: ks' => text_of ks'
  end.

(** [e.textContent = s] leaves one text node. *)
Definition set_textContent (s : string) (e : element) : element :=
  el (sel e) (hidden e) [Txt s].

End Dom.

(* ------------------------------------------------------------------ *)
(** ** Overlay lifecycle

    [open()] and [close()] of [CartDrawer] ([src/assets/cart-drawer.js],
    lines 74-108), [MobileMenu] ([src/unnamed/part_001], lines 60-97),
    [SearchDrawer] ([src/unnamed/part_002], lines 63-98) and [FilterDrawer]
    ([src/unnamed/part_000], lines 59-83) are the same up to classes and ARIA
    attributes. Each moves focus on open to an element of its own, when
    present: the first focusable descendant ([trapFocus]), the close button
    ([MobileMenu]) or the search input ([SearchDrawer]); that element is
    [inner]. [document.addEventListener] ignores a second registration of the
    same bound listener, so the registered key-listeners form a set. *)

Module Overlay.

Definition elem := nat.

Record t := mk {
  isOpen : bool;                     (** the [is-open] class *)
  keyListeners : list nat;           (** [keydown] listeners on [document] *)
  previouslyFocused : option elem;
  activeElement : option elem        (** [document.activeElement] *)
}.

(** [el.focus()]: takes effect when [el] is a focusable area, which
    [focusable] tells: an element in the document that can take focus. It is
    a no-op on any other element: one no longer in the document,
    [document.body], an element in a hidden subtree (such as the hidden cart
    footer), a disabled control, an [input type="hidden"]. *)
Definition focus (focusable : elem -> bool) (e : elem) (s : t) : t :=
  if focusable e then mk (isOpen s) (keyListeners s) (previouslyFocused s) (Some e)
  else s.

Definition addEventListener (l : nat) (ls : list nat) : list nat :=
  if existsb (Nat.eqb l) ls then ls else ls ++ [l].

Definition removeEventListener (l : nat) (ls : list nat) : list nat :=
  filter (fun x => negb (Nat.eqb x l)) ls.

Section Lifecycle.

Variable focusable : elem -> bool.
(** [this.handleKeydown], bound once in [connectedCallback]. *)
Variable handleKeydown : nat.
Variable inner : option elem.

Definition open (s : t) : t :=
  let s := mk true (addEventListener handleKeydown (keyListeners s))
              (activeElement s) (activeElement s) in
  match inner with Some f => focus focusable f s | None => s end.

Definition close (s : t) : t :=
  let s := mk false (removeEventListener handleKeydown (keyListeners s))
              (previouslyFocused s) (activeElement s) in
  match previouslyFocused s with
  | Some e => let s := focus focusable e s in
              mk (isOpen s) (keyListeners s) None (activeElement s)
  | None => s
  end.

End Lifecycle.

(** Focus moves the user makes while the overlay is open (Tab wrapping). *)
Definition focus_all (focusable : elem -> bool) (es : list elem) (s : t) : t :=
  fold_left (fun s e => focus focusable e s) es s.

End Overlay.

(* ------------------------------------------------------------------ *)
(** ** Responses of [fetch]

    [fetch] rejects ([NetworkError]) or resolves to a response with a status;
    reading its body ([response.text()]) may still reject ([None]). A body is
    given by what the component's parser makes of it. *)

Module Fetch.

Inductive response (A : Type) :=
  | NetworkError
  | Http (status : Z) (body : option A).
Arguments NetworkError {A}.
Arguments Http {A} status body.

(** [response.ok]. *)
Definition ok (status : Z) : bool := (200 <=? status) && (status <? 300).

End Fetch.

(* ------------------------------------------------------------------ *)
(** ** CartDrawer ([src/assets/cart-drawer.js], lines 27-220) *)

Module CartDrawer.
Import Dom.

Definition BODY := ".cart-drawer-body"%string.
Definition FOOTER := ".cart-drawer-footer"%string.
Definition PANEL := ".cart-drawer-panel"%string.
Definition COUNT := ".cart-drawer-count"%string.

(** [renderFromHTML(html)], in its three parts; [newDrawer] is
    [new DOMParser().parseFromString(html).querySelector('cart-drawer')],
    given by the regions found inside it. *)

(** Replace body content. *)
Definition render_body (nd : root) (dom : root) : root :=
  match querySelector BODY dom, querySelector BODY nd with
  | Some _, Some nb => modify BODY (set_innerHTML (kids nb)) dom
  | _, _ => dom
  end.

(** Replace or toggle the footer (absent when the cart is empty). *)
Definition render_footer (nd : root) (dom : root) : root :=
  let panel := querySelector PANEL dom in
  let currentFooter := querySelector FOOTER dom in
  match querySelector FOOTER nd with
  | Some nf =>
      match currentFooter with
      | Some _ =>
          modify FOOTER (fun e => set_hidden false (set_innerHTML (kids nf) e)) dom
      | None =>
          (* [panel.insertAdjacentHTML('beforeend', newFooter.outerHTML)] *)
          match panel with Some _ => dom ++ [nf] | None => dom end
      end
  | None =>
      match currentFooter with
      | Some _ => modify FOOTER (set_hidden true) dom
      | None => dom
      end
  end.

(** Update the item count display. *)
Definition render_count (nd : root) (dom : root) : root :=
  match querySelector COUNT dom, querySelector COUNT nd with
  | Some _, Some nc => modify COUNT (set_textContent (text_of (kids nc))) dom
  | _, _ => dom
  end.

Definition renderFromHTML (newDrawer : option root) (dom : root) : root :=
  match newDrawer with
  | None => dom
  | Some nd => render_count nd (render_footer nd (render_body nd dom))
  end.

Record t := mk {
  ov : Overlay.t;
  stale : bool;
  dom : root;
  loading : bool;      (** the [is-loading] class *)
  refreshes : nat      (** calls of [refresh()] made so far *)
}.

(** The synchronous part of [refresh()], up to [await fetch(..)]. *)
Definition refresh_start (s : t) : t :=
  mk (ov s) (stale s) (dom s) true (S (refreshes s)).

(** The rest of [refresh()] once [fetch] settles; the flag says whether the
    returned promise rejects. *)
Definition refresh_complete (resp : Fetch.response (option root)) (s : t) : t * bool :=
  match resp with
  | Fetch.NetworkError => (mk (ov s) (stale s) (dom s) false (refreshes s), true)
  | Fetch.Http status body =>
      if negb (Fetch.ok status) then (mk (ov s) (stale s) (dom s) false (refreshes s), false)
      else match body with
           | None => (mk (ov s) (stale s) (dom s) false (refreshes s), true)
           | Some nd =>
               (mk (ov s) (stale s) (renderFromHTML nd (dom s)) false (refreshes s), false)
           end
  end.

(** A section entry of a [cart:updated] event: the HTML text and what
    [renderFromHTML] parses out of it. *)
Record bundled := bundle { raw : string; parsed : option root }.

Section WithFocus.
Variable focusable : Overlay.elem -> bool.
Variable handleKeydown : nat.
Variable firstFocusable : option Overlay.elem.

(** [open()]. *)
Definition open (s : t) : t :=
  let s := if stale s then
             let s := refresh_start s in mk (ov s) false (dom s) (loading s) (refreshes s)
           else s in
  mk (Overlay.open focusable handleKeydown firstFocusable (ov s))
     (stale s) (dom s) (loading s) (refreshes s).

End WithFocus.

(** [_onCartUpdated(e)], [e.detail.sections['cart-drawer']] being [html]. *)
Definition onCartUpdated (html : option bundled) (s : t) : t :=
  match html with
  | Some h =>
      if negb (String.eqb (raw h) "") then
        mk (ov s) (stale s) (renderFromHTML (parsed h) (dom s)) (loading s) (refreshes s)
      else if Overlay.isOpen (ov s) then refresh_start s
      else mk (ov s) true (dom s) (loading s) (refreshes s)
  | None =>
      if Overlay.isOpen (ov s) then refresh_start s
      else mk (ov s) true (dom s) (loading s) (refreshes s)
  end.

(** The outcomes of [fetch] in which [refresh()] fails: a rejected fetch, a
    non-success status, a body that cannot be read, and a body in which no
    [cart-drawer] element is found. *)
Definition refresh_failure (resp : Fetch.response (option root)) : Prop :=
  match resp with
  | Fetch.NetworkError => True
  | Fetch.Http status body => Fetch.ok status = false \/ body = None \/ body = Some None
  end.

(** The event carries no bundled section HTML ([html] is falsy). *)
Definition unbundled (html : option bundled) : bool :=
  match html with Some h => String.eqb (raw h) "" | None => true end.

Definition updates (es : list (option bundled)) (s : t) : t :=
  fold_left (fun s h => onCartUpdated h s) es s.

End CartDrawer.

(* ------------------------------------------------------------------ *)
(** ** URLs: [URL] and its [searchParams] *)

Module Url.
Local Open Scope nat_scope.
Local Open Scope string_scope.

(** Strings are byte strings: text stands for its UTF-8 encoding, which
    the URL code decodes and re-encodes unchanged (the replacement of
    invalid UTF-8 sequences by U+FFFD is not modelled). *)

(** The [application/x-www-form-urlencoded] parser (URL Standard, 5.1),
    which builds [url.searchParams] from the URL's query. *)

(** Strictly split on [sep]. *)
Fixpoint split_on (sep : ascii) (s : string) : list string :=
  match s with
  | EmptyString => [EmptyString]
  | String c s' =>
      if Ascii.eqb c sep then EmptyString :: split_on sep s'
      else match split_on sep s' with
           | [] => [String c EmptyString]
           | x :: xs => String c x :: xs
           end
  end.

(** The bytes before the first [sep] and those after it; without [sep],
    all of [s] and the empty string. *)
Fixpoint break_at (sep : ascii) (s : string) : string * string :=
  match s with
  | EmptyString => (EmptyString, EmptyString)
  | String c s' =>
      if Ascii.eqb c sep then (EmptyString, s')
      else let (a, b) := break_at sep s' in (String c a, b)
  end.

Fixpoint plus_to_space (s : string) : string :=
  match s with
  | EmptyString => EmptyString
  | String c s' => String (if Ascii.eqb c "+"%char then " "%char else c) (plus_to_space s')
  end.

(** The value of an ASCII hex digit. *)
Definition hexval (c : ascii) : option nat :=
  let n := nat_of_ascii c in
  if (Nat.leb 48 n) && (Nat.leb n 57) then Some (n - 48)
  else if (Nat.leb 65 n) && (Nat.leb n 70) then Some (n - 55)
  else if (Nat.leb 97 n) && (Nat.leb n 102) then Some (n - 87)
  else None.

(** Percent-decode: [%] and two hex digits give the byte they spell; any
    other [%] is kept. *)
Fixpoint percent_decode (s : string) : string :=
  match s with
  | EmptyString => EmptyString
  | String c t =>
      if Ascii.eqb c "%"%char then
        match t with
        | String a (String b rest) =>
            match hexval a, hexval b with
            | Some x, Some y => String (ascii_of_nat (x * 16 + y)) (percent_decode rest)
            | _, _ => String c (percent_decode t)
            end
        | _ => String c (percent_decode t)
        end
      else String c (percent_decode t)
  end.

Definition parse_pair (sequence : string) : string * string :=
  let (name, value) := break_at "="%char sequence in
  (percent_decode (plus_to_space name), percent_decode (plus_to_space value)).

Definition parse (input : string) : list (string * string) :=
  map parse_pair (filter (fun seq => negb (String.eqb seq "")) (split_on "&"%char input)).

(** The [application/x-www-form-urlencoded] serializer (URL Standard,
    5.2): a space becomes [+], ASCII alphanumerics and [*-._] are kept,
    every other byte is [%XX] with upper-case hex digits. *)
Definition hexdigit (n : nat) : ascii :=
  if Nat.ltb n 10 then ascii_of_nat (48 + n) else ascii_of_nat (55 + n).

Definition kept (c : ascii) : bool :=
  let n := nat_of_ascii c in
  ((Nat.leb 48 n) && (Nat.leb n 57)) || ((Nat.leb 65 n) && (Nat.leb n 90)) || ((Nat.leb 97 n) && (Nat.leb n 122)) ||
  Ascii.eqb c "*"%char || Ascii.eqb c "-"%char || Ascii.eqb c "."%char || Ascii.eqb c "_"%char.

Definition encode_byte (c : ascii) : string :=
  if Ascii.eqb c " "%char then "+"
  else if kept c then String c EmptyString
  else String "%"%char (String (hexdigit (nat_of_ascii c / 16))
                          (String (hexdigit (nat_of_ascii c mod 16)) EmptyString)).

Fixpoint encode (s : string) : string :=
  match s with
  | EmptyString => EmptyString
  | String c s' => encode_byte c ++ encode s'
  end.

Definition serialize_pair (p : string * string) : string :=
  encode (fst p) ++ "=" ++ encode (snd p).

Fixpoint serialize (q : list (string * string)) : string :=
  match q with
  | [] => ""
  | [p] => serialize_pair p
  | p :: q' => serialize_pair p ++ "&" ++ serialize q'
  end.

(** Whether [s] contains the byte [c]. *)
Fixpoint has_byte (c : ascii) (s : string) : bool :=
  match s with
  | EmptyString => false
  | String c' s' => Ascii.eqb c' c || has_byte c s'
  end.

(** A URL as the URL Standard records it: [origin] is the scheme, host and
    port as [href] spells them ([https://shop.example]), [path] the
    serialized path, [search] the query without its [?] ([None] for null)
    and [fragment] the fragment without its [#]. *)
Record url := mk {
  origin : string;
  path : string;
  search : option string;
  fragment : option string
}.

(** [url.searchParams]: the list parsed from the query. *)
Definition query (u : url) : list (string * string) :=
  parse (match search u with Some q => q | None => "" end).

(** The update steps of [URLSearchParams]: the whole list is serialized
    into the URL's query, the empty serialization becoming null. *)
Definition update_steps (q : list (string * string)) (u : url) : url :=
  mk (origin u) (path u)
     (match serialize q with EmptyString => None | s => Some s end)
     (fragment u).

(** [searchParams.set(k, v)]: the first pair named [k] gets the value [v]
    and the later ones are removed; without one, the pair is appended. *)
Fixpoint set_in (k v : string) (q : list (string * string)) : list (string * string) :=
  match q with
  | [] => [(k, v)]
  | (k', v') :: q' =>
      if String.eqb k' k then (k, v) :: filter (fun p => negb (String.eqb (fst p) k)) q'
      else (k', v') :: set_in k v q'
  end.

Definition set (k v : string) (u : url) : url := update_steps (set_in k v (query u)) u.

(** [searchParams.delete(k)]: it runs the update steps whether or not a
    pair named [k] was there. *)
Definition delete (k : string) (u : url) : url :=
  update_steps (filter (fun p => negb (String.eqb (fst p) k)) (query u)) u.

(** [url.href], the URL serializer. *)
Definition href (u : url) : string :=
  origin u ++ path u ++
  (match search u with Some q => "?" ++ q | None => "" end) ++
  (match fragment u with Some f => "#" ++ f | None => "" end).

End Url.

(* ------------------------------------------------------------------ *)
(** ** FilterDrawer.applyFilters ([src/unnamed/part_000], lines 159-215) *)

Module FilterDrawer.
Import Dom.

(** [swap(selector, doc)]. *)
Definition swap (selector : string) (doc : root) (live : root) : root :=
  match querySelector selector live, querySelector selector doc with
  | Some _, Some next => modify selector (set_innerHTML (kids next)) live
  | _, _ => live
  end.

(** [swapForm(doc)] (the re-binding of the form's listeners is not modelled). *)
Definition swapForm (doc : root) (live : root) : root :=
  swap ".filter-drawer-body" doc live.

Definition regions : list string :=
  ["[data-products]"; "[data-active-filters]"; "[data-sorting]"; ".filter-count"]%string.

Definition merge (doc : root) (live : root) : root :=
  swapForm doc (fold_left (fun live sel => swap sel doc live) regions live).

Record t := mk {
  ov : Overlay.t;
  sectionId : option string;
  section : root;               (** the section element's regions *)
  loading : bool;               (** [is-loading] on the section *)
  location : Url.url;           (** [location] *)
  history : list string;        (** hrefs pushed with [history.pushState] *)
  requested : list Url.url      (** URLs fetched *)
}.

Section WithFocus.
Variable focusable : Overlay.elem -> bool.
Variable handleKeydown : nat.

(** [applyFilters(url)], [resp] being what [fetch(fetchUrl)] settles to.
    [u] is [new URL(url, location.origin)]: [fetchUrl] and [cleanUrl] are
    both parsed from [url], so both start as [u]. The popstate handler
    passes [location.href], which parses back to [location]. *)
Definition applyFilters (u : Url.url) (resp : Fetch.response root) (s : t) : t :=
  match sectionId s with
  | None => s
  | Some sid =>
      let fetchUrl := Url.set "section_id" sid u in
      let req := requested s ++ [fetchUrl] in
      let failed := mk (ov s) (sectionId s) (section s) false (location s) (history s) req in
      match resp with
      | Fetch.NetworkError => failed
      | Fetch.Http status body =>
          if negb (Fetch.ok status) then failed
          else match body with
               | None => failed
               | Some doc =>
                   let sec := merge doc (section s) in
                   let cleanUrl := Url.delete "section_id" u in
                   let '(loc, hist) :=
                     if negb (String.eqb (Url.href cleanUrl) (Url.href (location s)))
                     then (cleanUrl, history s ++ [Url.href cleanUrl])
                     else (location s, history s) in
                   let o := if Overlay.isOpen (ov s)
                            then Overlay.close focusable handleKeydown (ov s) else ov s in
                   mk o (sectionId s) sec false loc hist req
               end
      end
  end.

End WithFocus.

(** The outcomes of [fetch] in which [applyFilters] fails: a rejected
    fetch, a non-success status, a body that cannot be read, and a body in
    which none of the swapped regions is found. *)
Definition refresh_failure (resp : Fetch.response root) : Prop :=
  match resp with
  | Fetch.NetworkError => True
  | Fetch.Http status body =>
      Fetch.ok status = false \/ body = None \/
      exists doc, body = Some doc /\
        Forall (fun r => querySelector r doc = None) (".filter-drawer-body"%string :: regions)
  end.

End FilterDrawer.

(* ------------------------------------------------------------------ *)
(** ** ProductForm.handleSubmit ([src/assets/product-form.js], lines 145-221) *)

Module ProductForm.

Record alert := mkAlert { text : string; alert_hidden : bool }.

Record t := mk {
  errorContainer : option alert;   (** [[data-error]] *)
  events : list string             (** events dispatched on [document] *)
}.

(** What [response.json()] gives: a rejection with the parse error's
    message when the body is not JSON, or the parsed body, of which the code
    reads [description] (a string, [None] when absent). *)
Inductive json_body :=
  | InvalidJson (message : string)
  | JsonBody (description : option string).

(** The settled [fetch('/cart/add.js')]: a rejection with its message, or a
    status with the body that [response.json()] reads. *)
Inductive add_response :=
  | AddNetworkError (message : string)
  | AddHttp (status : Z) (body : json_body).

Definition clearError (s : t) : t :=
  mk (option_map (fun _ => mkAlert "" true) (errorContainer s)) (events s).

Definition showError (message : string) (s : t) : t :=
  mk (option_map (fun _ => mkAlert message false) (errorContainer s)) (events s).

(** [errorData.description || 'Failed to add to cart']. *)
Definition error_message (description : option string) : string :=
  match description with
  | Some d => if String.eqb d "" then "Failed to add to cart" else d
  | None => "Failed to add to cart"
  end.

Definition handleSubmit (resp : add_response) (s : t) : t :=
  let s := clearError s in
  match resp with
  | AddNetworkError m => showError m s
  | AddHttp _ (InvalidJson m) => showError m s
  | AddHttp status (JsonBody description) =>
      if negb (Fetch.ok status) then showError (error_message description) s
      else mk (errorContainer s) (events s ++ ["cart:item-added"%string])
  end.

End ProductForm.

(* ------------------------------------------------------------------ *)
(** ** handleKeydown of the overlays

    [CartDrawer.handleKeydown] ([src/assets/cart-drawer.js], lines 179-205)
    and its copies in [MobileMenu], [SearchDrawer] and [FilterDrawer].
    [focusables] is the result of [this.querySelectorAll(..)] at the time of
    the key press; the flag returned says whether [e.preventDefault()] ran. *)

Module Keydown.
Import Overlay.

Inductive key := Escape | Tab | OtherKey.

Record keyevent := kev { key_of : key; shiftKey : bool }.

(** [document.activeElement === el]. *)
Definition is_active (s : t) (e : elem) : bool :=
  match activeElement s with Some a => Nat.eqb a e | None => false end.

Section WithComponent.
Variable focusable : elem -> bool.
Variable handleKeydownListener : nat.

Definition handleKeydown (focusables : list elem) (ev : keyevent) (s : t) : t * bool :=
  match key_of ev with
  | Escape => (close focusable handleKeydownListener s, false)
  | OtherKey => (s, false)
  | Tab =>
      match focusables with
      | [] => (s, false)
      | firstFocusable :: _ =>
          let lastFocusable := last focusables firstFocusable in
          if shiftKey ev && is_active s firstFocusable then
            (focus focusable lastFocusable s, true)
          else if negb (shiftKey ev) && is_active s lastFocusable then
            (focus focusable firstFocusable s, true)
          else (s, false)
      end
  end.

End WithComponent.

End Keydown.

(* ------------------------------------------------------------------ *)
(** ** SearchDrawer input handling ([src/unnamed/part_002], lines 126-159,
    244-247)

    The fetch itself is the request-id guard of [FragmentGuard]; each
    [fetchResults] call issues the next token as its payload and records its
    query, so the query of token [n] is the [n]-th recorded one. Strings are
    sequences of 8-bit code units. *)

Module SearchDrawer.

(** The white space [String.prototype.trim] removes, among 8-bit code units:
    TAB, LF, VT, FF, CR, SPACE and NO-BREAK SPACE. *)
Definition is_ws (c : Ascii.ascii) : bool :=
  existsb (Nat.eqb (Ascii.nat_of_ascii c)) [9; 10; 11; 12; 13; 32; 160]%nat.

Fixpoint dropws (l : list Ascii.ascii) : list Ascii.ascii :=
  match l with
  | c :: l' => if is_ws c then dropws l' else l
  | [] => []
  end.

Definition trim_list (l : list Ascii.ascii) : list Ascii.ascii :=
  rev (dropws (rev (dropws l))).

(** [value.trim()]. *)
Definition trim (s : string) : string :=
  string_of_list_ascii (trim_list (list_ascii_of_string s)).

Record t := mk {
  guard : FragmentGuard.t;
  debounceTimer : option (Z * string);   (** deadline, query *)
  queries : list string                  (** queries [fetchResults] ran with *)
}.

Definition init : t := mk FragmentGuard.init None [].

(** [clearResults()]: the results container is emptied. *)
Definition clearResults (g : FragmentGuard.t) : FragmentGuard.t :=
  FragmentGuard.mk (FragmentGuard.counter g) (FragmentGuard.loading g) None
    (FragmentGuard.inflight g).

(** The synchronous part of [fetchResults(query)]. *)
Definition fetchResults (query : string) (s : t) : t :=
  mk (FragmentGuard.step (guard s) (FragmentGuard.Issue (S (FragmentGuard.counter (guard s)))))
     (debounceTimer s) (queries s ++ [query]).

(** The debounce timer fires when due. *)
Definition advance (now : Z) (s : t) : t :=
  match debounceTimer s with
  | Some (d, q) => if d <=? now then fetchResults q (mk (guard s) None (queries s)) else s
  | None => s
  end.

(** [onInput()] at time [now], the input holding [value]. *)
Definition onInput (now : Z) (value : string) (s : t) : t :=
  let s := advance now s in
  let query := trim value in
  if (String.length query <? 2)%nat then mk (clearResults (guard s)) None (queries s)
  else mk (guard s) (Some (now + 300, query)) (queries s).

Inductive event :=
  | Input (now : Z) (value : string)
  | Tick (now : Z)
  | Net (e : FragmentGuard.event).

Definition step (s : t) (e : event) : t :=
  match e with
  | Input now v => onInput now v s
  | Tick now => advance now s
  | Net e => mk (FragmentGuard.step (guard s) e) (debounceTimer s) (queries s)
  end.

Definition run (s : t) (es : list event) : t := fold_left step es s.

End SearchDrawer.

(** Invariants of the search drawer's state. *)

Module SearchDrawerInv.
Import SearchDrawer.
Local Open Scope nat_scope.

Definition head_ok (l : list Ascii.ascii) : Prop :=
  match l with [] => True | c :: _ => is_ws c = false end.

(** The queries [fetchResults] may be called with: trimmed, and at least
    two characters long. *)
Definition query_ok (q : string) : Prop := 2 <= String.length q /\ trim q = q.

Definition inv (s : t) : Prop :=
  Forall query_ok (queries s) /\
  match debounceTimer s with Some (_, q) => query_ok q | None => True end.

End SearchDrawerInv.

(* ------------------------------------------------------------------ *)
(** ** SearchDrawer.escapeHtml ([src/unnamed/part_002], lines 249-253)

    [div.textContent = str; return div.innerHTML]: the HTML serialisation of
    a text node replaces [&], NO-BREAK SPACE, [<] and [>] by entities and
    keeps every other character. *)

Module EscapeHtml.
Local Open Scope char_scope.

Definition nbsp : Ascii.ascii := Ascii.ascii_of_nat 160.

Definition escape_char (c : Ascii.ascii) : list Ascii.ascii :=
  if Ascii.eqb c "&" then list_ascii_of_string "&amp;"
  else if Ascii.eqb c nbsp then list_ascii_of_string "&nbsp;"
  else if Ascii.eqb c "<" then list_ascii_of_string "&lt;"
  else if Ascii.eqb c ">" then list_ascii_of_string "&gt;"
  else [c].

Fixpoint escape (l : list Ascii.ascii) : list Ascii.ascii :=
  match l with
  | [] => []
  | c :: l' => escape_char c ++ escape l'
  end.

Definition escapeHtml (s : string) : string :=
  string_of_list_ascii (escape (list_ascii_of_string s)).

End EscapeHtml.

(* ------------------------------------------------------------------ *)
(** ** ProductForm.handleVariantChange ([src/assets/product-form.js],
    lines 63-100) *)

Module VariantChange.

Record variant := variant_mk { id : string; options : list string }.

(** [variant.options.every((option, index) => option === selectedOptions[index])];
    past the end of [selectedOptions] the entry is [undefined]. *)
Fixpoint every_option (opts sel : list string) : bool :=
  match opts with
  | [] => true
  | o :: os =>
      match sel with
      | s :: ss => String.eqb o s && every_option os ss
      | [] => false
      end
  end.

(** The checked radio of each fieldset, in order; a fieldset with none
    checked contributes nothing. *)
Definition selectedOptions (fieldsets : list (option string)) : list string :=
  flat_map (fun f => match f with Some v => [v] | None => [] end) fieldsets.

Record t := mk {
  currentVariant : option variant;
  idInput : option string;          (** [input[name="id"]] and its value *)
  location : Url.url;
  renderCalls : list string;        (** [renderVariantSections] calls *)
  events : list string
}.

(** [productData] is [None] when there is no product JSON or no variants. *)
Definition handleVariantChange (productData : option (list variant))
    (fieldsets : list (option string)) (s : t) : t :=
  match productData with
  | None => s
  | Some variants =>
      match find (fun v => every_option (options v) (selectedOptions fieldsets)) variants with
      | None => s
      | Some v =>
          mk (Some v) (option_map (fun _ => id v) (idInput s))
             (Url.set "variant" (id v) (location s))
             (renderCalls s ++ [id v]) (events s ++ ["product:variant-changed"%string])
      end
  end.

End VariantChange.

(* ------------------------------------------------------------------ *)
(** ** CartItems.updateItem and renderFromSections ([src/assets/cart-items.js],
    lines 71-128) *)

Module CartItemsUpdate.

(** A section entry of the response: its HTML text and the [cart-items]
    element parsed out of it, given by its content and the [[data-error]]
    element in that content. *)
Record sectionHtml := section_html {
  html : string;
  cartItems : option (Dom.root * option ProductForm.alert)
}.

Record config := cfg { sectionId : string; insideDrawer : bool }.

Record t := mk {
  loading : bool;                          (** [is-loading] *)
  errorEl : option ProductForm.alert;      (** [[data-error]] *)
  content : Dom.root;                      (** this element's content *)
  events : list string;
  requests : list (string * Z * string)    (** id, quantity, section *)
}.

Fixpoint lookup (k : string) (m : list (string * sectionHtml)) : option sectionHtml :=
  match m with
  | [] => None
  | (k', v) :: m' => if String.eqb k' k then Some v else lookup k m'
  end.

(** [renderFromSections(sections)]. *)
Definition renderFromSections (c : config) (sections : list (string * sectionHtml)) (s : t) : t :=
  match lookup (sectionId c) sections with
  | None => s
  | Some h =>
      if String.eqb (html h) ""%string then s
      else match cartItems h with
           | Some (ci, err) => mk false err ci (events s) (requests s)
           | None => mk false (errorEl s) (content s) (events s) (requests s)
           end
  end.

Section Messages.
(** The messages of the errors [fetch] and [response.json()] reject with. *)
Variable networkMessage parseMessage : string.

(** [updateItem(key, quantity)]; a successful body is the [sections] map. *)
Definition updateItem (c : config) (key : string) (quantity : Z)
    (resp : Fetch.response (list (string * sectionHtml))) (s : t) : t :=
  let s := mk true (errorEl s) (content s) (events s) (requests s ++ [(key, quantity, sectionId c)]) in
  let fail msg := mk false (option_map (fun _ => ProductForm.mkAlert msg false) (errorEl s))
                     (content s) (events s) (requests s) in
  match resp with
  | Fetch.NetworkError => fail networkMessage
  | Fetch.Http status body =>
      if negb (Fetch.ok status) then fail "Failed to update cart"%string
      else match body with
           | None => fail parseMessage
           | Some sections =>
               let s := mk (loading s) (errorEl s) (content s)
                           (events s ++ ["cart:updated"%string]) (requests s) in
               if insideDrawer c then s else renderFromSections c sections s
           end
  end.

End Messages.

End CartItemsUpdate.

(* ------------------------------------------------------------------ *)
(** ** CartDrawer._onItemAdded ([src/assets/cart-drawer.js], line 41):
    [this.refresh().then(() => this.open())]. *)

Module CartDrawerItemAdded.
Import CartDrawer.

Definition onItemAdded (focusable : Overlay.elem -> bool) (handleKeydown : nat)
    (firstFocusable : option Overlay.elem) (resp : Fetch.response (option Dom.root)) (s : t) : t :=
  let '(s, rejected) := refresh_complete resp (refresh_start s) in
  if rejected then s else open focusable handleKeydown firstFocusable s.

End CartDrawerItemAdded.

(* ------------------------------------------------------------------ *)
(** ** FilterDrawer URL building: [bindForm] and [bindSort]
    ([src/unnamed/part_000], lines 119-157) *)

Module FilterUrls.

(** [searchParams.get(k)]. *)
Fixpoint get (k : string) (q : list (string * string)) : option string :=
  match q with
  | [] => None
  | (k', v) :: q' => if String.eqb k' k then Some v else get k q'
  end.

(** The filter form's submit handler: the form's entries, with the current
    URL's [sort_by] set on them when it is non-empty, serialized after the
    form's action and a [?]. [form.action] is the absolute URL of the
    action, without query or fragment, given by its origin and path; the
    string [`${form.action}?${params}`] parses back to that origin and path
    with [params.toString()] as its query, whose bytes the URL parser keeps
    as they are. *)
Definition submitUrl (actionOrigin actionPath : string) (formData : list (string * string))
    (location : Url.url) : Url.url :=
  let params :=
    match get "sort_by" (Url.query location) with
    | Some sortBy => if String.eqb sortBy ""%string then formData else Url.set_in "sort_by" sortBy formData
    | None => formData
    end in
  Url.mk actionOrigin actionPath (Some (Url.serialize params)) None.

(** The sort select's change handler: the current URL with [sort_by] set to
    the select value's [sort_by] ([null], stringified, when it has none). *)
Definition sortUrl (location : Url.url) (selectValue : Url.url) : Url.url :=
  Url.set "sort_by"
    (match get "sort_by" (Url.query selectValue) with Some v => v | None => "null"%string end)
    location.

End FilterUrls.

(* ------------------------------------------------------------------ *)
(** ** NewsletterPopup ([src/assets/cart-items.js], lines 146-172) *)

Module NewsletterPopup.

Definition KEY := "newsletter-popup-dismissed"%string.

Record t := mk {
  storage : list (string * string);  (** [sessionStorage] *)
  timer : option Z;                  (** delay of the pending [show] *)
  visible : bool                     (** [is-visible] *)
}.

Definition getItem (k : string) (st : list (string * string)) : option string :=
  FilterUrls.get k st.

Fixpoint setItem (k v : string) (st : list (string * string)) : list (string * string) :=
  match st with
  | [] => [(k, v)]
  | (k', v') :: st' => if String.eqb k' k then (k, v) :: st' else (k', v') :: setItem k v st'
  end.

(** A finite result of [parseInt] is an integer: the double nearest the
    digits, which is the digits' value itself up to 2^53. *)
Inductive number := NaN | Num (z : Z) | PosInf | NegInf.

(** [x || d] on a number: NaN and 0 (also -0) are falsy. *)
Definition js_or (x : number) (d : Z) : number :=
  match x with
  | NaN => Num d
  | Num z => if Z.eqb z 0 then Num d else x
  | _ => x
  end.

(** ToInt32 of an integer: reduced modulo 2^32 into [[-2^31, 2^31)]. *)
Definition toInt32 (z : Z) : Z :=
  let m := z mod 2 ^ 32 in if 2 ^ 31 <=? m then m - 2 ^ 32 else m.

(** The delay [setTimeout] waits for: its [timeout] argument is a WebIDL
    [long] (ToInt32, with NaN and the infinities giving 0), and a negative
    timeout is set to 0. *)
Definition timer_delay (x : number) : Z :=
  match x with
  | Num z => Z.max 0 (toInt32 z)
  | _ => 0
  end.

(** [connectedCallback()]; [delayAttr] is [parseInt(this.dataset.delay, 10)]
    and the timer field holds the delay after which [show()] runs. *)
Definition connected (delayAttr : number) (s : t) : t :=
  let schedule := mk (storage s) (Some (timer_delay (js_or delayAttr 5000))) (visible s) in
  match getItem KEY (storage s) with
  | Some v => if String.eqb v ""%string then schedule else s
  | None => schedule
  end.

Definition show (s : t) : t := mk (storage s) None true.

Definition dismiss (s : t) : t := mk (setItem KEY "1"%string (storage s)) (timer s) false.

(** [disconnectedCallback()]. *)
Definition disconnected (s : t) : t := mk (storage s) None (visible s).

End NewsletterPopup.

(* ================================================================== *)
(** * Properties *)

Module QuantitySelectorFacts.
Import QuantitySelector.

Example clamp_nan_5_10 :
  value (clamp (connected (Some 5) (Some 10) None)) = Some 5.
Proof. reflexivity. Qed.

Example update_up_at_max :
  value (update 1 (connected (Some 1) (Some 3) (Some 3))) = Some 3.
Proof. reflexivity. Qed.

Lemma run_bounds (s : t) (ops : list op) :
  min (run s ops) = min s /\ max (run s ops) = max s.
Proof.
  unfold run. revert s. induction ops as [|o ops IH]; intro s; simpl.
  - split; reflexivity.
  - destruct (IH (step s o)) as [H1 H2]. rewrite H1, H2.
    destruct o; split; reflexivity.
Qed.

Lemma clamp_in_range (s : t) : min s <= max s -> in_range (clamp s).
Proof.
  intro Hle. unfold in_range, clamp; simpl.
  eexists; split; [reflexivity|]. lia.
Qed.

Lemma step_in_range (s : t) (o : op) : min s <= max s -> in_range (step s o).
Proof.
  intro Hle. destruct o; simpl.
  - unfold update. apply clamp_in_range. exact Hle.
  - apply clamp_in_range. exact Hle.
Qed.

Lemma run_in_range (s : t) (ops : list op) :
  min s <= max s -> ops <> [] \/ in_range s -> in_range (run s ops).
Proof.
  unfold run. revert s. induction ops as [|o ops IH]; intros s Hle Hstart; simpl.
  - destruct Hstart as [H|H]; [congruence|exact H].
  - apply IH.
    + destruct o; exact Hle.
    + right. apply step_in_range. exact Hle.
Qed.

Lemma step_inverted (s : t) (o : op) :
  max s < min s -> value (step s o) = Some (max s) /\ min (step s o) = min s /\
  max (step s o) = max s.
Proof.
  intro Hlt. destruct o; simpl; unfold update, clamp; simpl;
    (split; [f_equal; lia|split; reflexivity]).
Qed.

Lemma run_inverted (s : t) (ops : list op) :
  max s < min s -> ops <> [] -> value (run s ops) = Some (max s).
Proof.
  unfold run. revert s. induction ops as [|o ops IH]; intros s Hlt Hne; [congruence|].
  simpl. destruct (step_inverted s o Hlt) as [Hv [Hmin Hmax]].
  destruct ops as [|o' ops'].
  - simpl. exact Hv.
  - rewrite <- Hmax. apply IH; [rewrite Hmin, Hmax; exact Hlt|discriminate].
Qed.

(** C10 (counterexample): with [min="100"] and no [max] attribute the
    selector reads [min = 100] and [max = 99]; [clamp()] of a non-numeric
    value then yields 99, not [min]. *)
Lemma clamp_min_above_default_max :
  let s := connected (Some 100) None None in
  min s = 100 /\ max s = 99 /\ value (clamp s) = Some 99 /\ value (clamp s) <> Some (min s).
Proof. simpl. repeat split; try reflexivity. discriminate. Qed.

(** C10 (amended): when [min <= max], [update(delta)] of a numeric value
    sets it to [min(max, max(min, value + delta))], [clamp()] maps a
    non-numeric value to [min] and a numeric one into [[min, max]], and after
    any non-empty sequence of update/clamp operations (or any sequence from a
    value already in range) the value lies in [[min, max]]. When [min]
    exceeds [max], every non-empty sequence of operations leaves the value
    at [max]. [min] and [max] never change. *)
Theorem quantity_selector_clamped (s : t) :
  (min s <= max s ->
   (forall delta v, value s = Some v ->
      value (update delta s) = Some (Z.min (max s) (Z.max (min s) (v + delta)))) /\
   (value s = None -> value (clamp s) = Some (min s)) /\
   (forall v, value s = Some v ->
      exists w, value (clamp s) = Some w /\ min s <= w <= max s) /\
   (forall ops, ops <> [] \/ in_range s -> in_range (run s ops))) /\
  (max s < min s -> forall ops, ops <> [] -> value (run s ops) = Some (max s)) /\
  (forall ops, min (run s ops) = min s /\ max (run s ops) = max s).
Proof.
  split; [|split].
  - intro Hle. split; [|split; [|split]].
    + intros delta v Hv. unfold update, update_assign, clamp; simpl.
      rewrite Hv; simpl. f_equal. lia.
    + intro Hv. unfold clamp; simpl. rewrite Hv. f_equal. lia.
    + intros v Hv. unfold clamp; simpl. rewrite Hv.
      eexists; split; [reflexivity|]. lia.
    + intros ops Hops. apply run_in_range; assumption.
  - intros Hlt ops Hne. apply run_inverted; assumption.
  - intro ops. apply run_bounds.
Qed.

(** [min="100"] and no [max] attribute: one click on "+" leaves 99. *)
Lemma quantity_selector_clamped_witness :
  max (connected (Some 100) None (Some 1)) < min (connected (Some 100) None (Some 1)) /\
  value (run (connected (Some 100) None (Some 1)) [Update 1]) = Some 99.
Proof.
  assert (Hlt : max (connected (Some 100) None (Some 1)) < min (connected (Some 100) None (Some 1)))
    by (simpl; lia).
  split; [exact Hlt|].
  apply (proj1 (proj2 (quantity_selector_clamped (connected (Some 100) None (Some 1)))) Hlt).
  discriminate.
Defined.

End QuantitySelectorFacts.

Module CartItemsDebounceFacts.
Import CartItemsDebounce.
Local Open Scope string_scope.
Local Open Scope list_scope.
Local Open Scope Z_scope.

Example one_call_runs : flush (run [(0, "k1", 2)] init) = [("k1", 2)]%string.
Proof. reflexivity. Qed.

Example spaced_calls_both_run :
  flush (run [(0, "k1", 2); (400, "k1", 3)] init) = [("k1", 2); ("k1", 3)]%string.
Proof. reflexivity. Qed.

Lemma rapid_tail (prev : Z) (c : string * Z) (calls : list call) (s : t) :
  debounceTimer s = Some (prev + delay, c) -> rapid prev calls ->
  flush (run calls s) = executed s ++ [last_args c calls].
Proof.
  revert prev c s. induction calls as [|[[now k] q] calls IH]; intros prev c s Ht Hr.
  - unfold flush; simpl. rewrite Ht. reflexivity.
  - destruct Hr as [[Hlo Hhi] Hr].
    assert (E : debouncedUpdate now k q s = mk (Some (now + delay, (k, q))) (executed s)).
    { unfold debouncedUpdate, advance. rewrite Ht.
      replace (prev + delay <=? now) with false by (symmetry; apply Z.leb_gt; lia).
      reflexivity. }
    change (flush (run calls (debouncedUpdate now k q s))
            = executed s ++ [last_args (k, q) calls]).
    rewrite E. exact (IH now (k, q) (mk (Some (now + delay, (k, q))) (executed s)) eq_refl Hr).
Qed.

(** C2 (counterexample): two updates of different line items 100 ms apart
    produce a single [updateItem] call, for the second item only. *)
Lemma different_keys_share_timer :
  flush (run [(0, "line-a", 2); (100, "line-b", 5)] init) = [("line-b", 5)]%string.
Proof. reflexivity. Qed.

(** C2 (amended): the component has one pending timer whatever the key.
    Calls each less than the delay after the previous one, with any keys,
    produce exactly one [updateItem] execution, with the key and quantity of
    the last call. *)
Theorem debounce_one_slot (s : t) (t0 : Z) (k0 : string) (q0 : Z) (rest : list call) :
  debounceTimer s = None -> rapid t0 rest ->
  flush (run ((t0, k0, q0) :: rest) s) = executed s ++ [last_args (k0, q0) rest].
Proof.
  intros Hnone Hr.
  assert (E : debouncedUpdate t0 k0 q0 s = mk (Some (t0 + delay, (k0, q0))) (executed s)).
  { unfold debouncedUpdate, advance. rewrite Hnone. reflexivity. }
  change (flush (run rest (debouncedUpdate t0 k0 q0 s))
          = executed s ++ [last_args (k0, q0) rest]).
  rewrite E. exact (rapid_tail t0 (k0, q0) rest (mk (Some (t0 + delay, (k0, q0))) (executed s)) eq_refl Hr).
Qed.

Lemma debounce_one_slot_witness :
  rapid 0 [(100, "line-a", 3); (250, "line-a", 4)]%string /\
  flush (run [(0, "line-a", 2); (100, "line-a", 3); (250, "line-a", 4)]%string init)
    = [("line-a", 4)]%string.
Proof.
  assert (Hr : rapid 0 [(100, "line-a", 3); (250, "line-a", 4)]%string)
    by (simpl; unfold delay; lia).
  split; [exact Hr|].
  rewrite (debounce_one_slot init 0 "line-a" 2 _ eq_refl Hr). reflexivity.
Defined.

End CartItemsDebounceFacts.

Module FragmentGuardFacts.
Import FragmentGuard.
Local Open Scope nat_scope.

Example single_request_applied :
  shown (run init [Issue 7; FetchDone 1 true; BodyDone 1]) = Some 7.
Proof. reflexivity. Qed.

(** When [fetch] of the older request resolves after the newer one was
    issued, the older response is discarded at the check. *)
Example newer_fetch_first :
  shown (run init [Issue 101; Issue 202; FetchDone 2 true; BodyDone 2;
                   FetchDone 1 true; BodyDone 1]) = Some 202.
Proof. reflexivity. Qed.

Lemma find_req_token (tok : nat) (st : stage) (l : list request) (r : request) :
  find_req tok st l = Some r -> token r = tok.
Proof.
  induction l as [|r' l IH]; simpl; [discriminate|].
  destruct (Nat.eqb (token r') tok) eqn:E; simpl.
  - destruct (stage_of r'), st; try (intro H; inversion H; subst; apply Nat.eqb_eq; exact E);
      exact IH.
  - exact IH.
Qed.

(** The check itself: a [fetch] resuming with a token that is no longer
    current never reaches the body-reading step. *)
Lemma stale_fetch_discarded (s : t) (tok : nat) (ok : bool) :
  tok <> counter s ->
  find_req tok AwaitBody (inflight (step s (FetchDone tok ok))) =
    match find_req tok AwaitFetch (inflight s) with
    | None => find_req tok AwaitBody (inflight s)
    | Some _ => find_req tok AwaitBody (drop tok (inflight s))
    end.
Proof.
  intro Hne. simpl. destruct (find_req tok AwaitFetch (inflight s)); [|reflexivity].
  replace (Nat.eqb tok (counter s)) with false by (symmetry; apply Nat.eqb_neq; exact Hne).
  rewrite orb_true_r. reflexivity.
Qed.

(** C1 (code_bug): the product form switches to variant 101, the [fetch]
    for it resolves while it is still the latest request and passes the
    check, then the user switches to variant 202, whose response is read in
    full; the body of the first response arrives last and is rendered. The
    DOM ends on variant 101's regions while the current request is the
    second one: the token check runs before [await response.text()], not at
    the moment the response is applied. *)
Theorem body_after_newer_request_applied :
  let s := run init [Issue 101; FetchDone 1 true; Issue 202; FetchDone 2 true;
                     BodyDone 2; BodyDone 1] in
  counter s = 2%nat /\ shown s = Some 101 /\ loading s = false.
Proof. repeat split. Qed.

End FragmentGuardFacts.

Module OverlayFacts.
Import Overlay.
Local Open Scope nat_scope.

Lemma addEventListener_idem (l : nat) (ls : list nat) :
  addEventListener l (addEventListener l ls) = addEventListener l ls.
Proof.
  unfold addEventListener. destruct (existsb (Nat.eqb l) ls) eqn:E.
  - rewrite E. reflexivity.
  - rewrite existsb_app. simpl.
    rewrite Nat.eqb_refl, orb_true_r. reflexivity.
Qed.

Lemma removeEventListener_idem (l : nat) (ls : list nat) :
  removeEventListener l (removeEventListener l ls) = removeEventListener l ls.
Proof.
  unfold removeEventListener. induction ls as [|x ls IH]; simpl; [reflexivity|].
  destruct (Nat.eqb x l) eqn:E; simpl.
  - exact IH.
  - rewrite E. simpl. rewrite IH. reflexivity.
Qed.

Lemma focus_previouslyFocused (focusable : elem -> bool) (e : elem) (s : t) :
  previouslyFocused (focus focusable e s) = previouslyFocused s.
Proof. unfold focus. destruct (focusable e); reflexivity. Qed.

Lemma focus_all_previouslyFocused (focusable : elem -> bool) (es : list elem) (s : t) :
  previouslyFocused (focus_all focusable es s) = previouslyFocused s.
Proof.
  unfold focus_all. revert s. induction es as [|e es IH]; intro s; simpl; [reflexivity|].
  rewrite IH. apply focus_previouslyFocused.
Qed.

Section WithComponent.
Variable focusable : elem -> bool.
Variable handleKeydown : nat.
Variable inner : option elem.

Lemma open_fields (s : t) :
  isOpen (open focusable handleKeydown inner s) = true /\
  keyListeners (open focusable handleKeydown inner s)
    = addEventListener handleKeydown (keyListeners s) /\
  previouslyFocused (open focusable handleKeydown inner s) = activeElement s.
Proof.
  unfold open. destruct inner as [f|]; [unfold focus; destruct (focusable f)|];
    repeat split.
Qed.

Lemma close_previouslyFocused (s : t) :
  previouslyFocused (close focusable handleKeydown s) = None.
Proof.
  unfold close. destruct (previouslyFocused s); reflexivity.
Qed.

End WithComponent.

(** C3 (code bug): a second [open()] leaves the open flag and the
    registered key-listeners as one [open()] does (the identical bound
    listener is not added twice), and a second [close()] changes nothing.
    But [open()] has no already-open guard: when the first [open()] moved
    focus from the trigger [e] to the panel's first focusable element
    [inner], the second [open()] captures [inner], and the [close()] that
    follows leaves focus on [inner] instead of giving it back to [e]. *)
Theorem double_open_recaptures_focus (focusable : elem -> bool) (handleKeydown : nat)
    (inner e : elem) (s : t) :
  activeElement s = Some e -> focusable inner = true -> inner <> e ->
  isOpen (open focusable handleKeydown (Some inner) (open focusable handleKeydown (Some inner) s))
    = isOpen (open focusable handleKeydown (Some inner) s) /\
  keyListeners (open focusable handleKeydown (Some inner)
                  (open focusable handleKeydown (Some inner) s))
    = keyListeners (open focusable handleKeydown (Some inner) s) /\
  close focusable handleKeydown (close focusable handleKeydown s)
    = close focusable handleKeydown s /\
  previouslyFocused (open focusable handleKeydown (Some inner) s) = Some e /\
  previouslyFocused (open focusable handleKeydown (Some inner)
                       (open focusable handleKeydown (Some inner) s)) = Some inner /\
  activeElement (close focusable handleKeydown
                   (open focusable handleKeydown (Some inner)
                      (open focusable handleKeydown (Some inner) s))) = Some inner /\
  Some inner <> Some e.
Proof.
  intros Hact Hi Hne.
  set (s1 := open focusable handleKeydown (Some inner) s).
  destruct (open_fields focusable handleKeydown (Some inner) s) as [O1 [O2 O3]].
  destruct (open_fields focusable handleKeydown (Some inner) s1) as [P1 [P2 P3]].
  fold s1 in O1, O2, O3.
  assert (A1 : activeElement s1 = Some inner).
  { unfold s1, open, focus. rewrite Hi. reflexivity. }
  split; [|split; [|split; [|split; [|split; [|split]]]]].
  - rewrite P1, O1. reflexivity.
  - rewrite P2, O2. apply addEventListener_idem.
  - pose proof (close_previouslyFocused focusable handleKeydown s) as Hn.
    unfold close at 1. rewrite Hn.
    unfold close. destruct (previouslyFocused s) as [x|]; simpl.
    + unfold focus. destruct (focusable x); simpl; rewrite removeEventListener_idem; reflexivity.
    + rewrite removeEventListener_idem. reflexivity.
  - rewrite O3. exact Hact.
  - rewrite P3. exact A1.
  - unfold close. rewrite P3, A1. unfold focus. simpl. rewrite Hi. reflexivity.
  - congruence.
Qed.

(** The cart drawer's trigger (element 1) has focus and its close button
    (element 2) is the panel's first focusable element. *)
Lemma double_open_recaptures_focus_witness :
  activeElement (close (fun _ => true) 9
    (open (fun _ => true) 9 (Some 2) (open (fun _ => true) 9 (Some 2) (mk false [] None (Some 1)))))
  = Some 2.
Proof.
  assert (H : (2 <> 1)%nat) by lia.
  exact (proj1 (proj2 (proj2 (proj2 (proj2 (proj2
    (double_open_recaptures_focus (fun _ => true) 9 2 1 (mk false [] None (Some 1))
       eq_refl eq_refl H))))))).
Defined.

(** C8 (code bug): when the element focused before [open()] is not a
    focusable area, as [document.body] is not, and [open()] moves focus into
    the panel, [close()] calls [focus()] on the captured element to no
    effect: focus stays on the panel's element instead of going back. *)
Theorem close_leaves_focus_in_panel (focusable : elem -> bool) (handleKeydown : nat)
    (inner b : elem) (s : t) :
  activeElement s = Some b -> focusable b = false -> focusable inner = true ->
  previouslyFocused (open focusable handleKeydown (Some inner) s) = Some b /\
  activeElement (close focusable handleKeydown (open focusable handleKeydown (Some inner) s))
  = Some inner.
Proof.
  intros Hb Hnf Hi. unfold open, close, focus. rewrite Hi. simpl. rewrite Hb, Hnf.
  split; reflexivity.
Qed.

(** [document.body] (element 0) has focus and the cart drawer's close
    button (element 5) is its first focusable element. *)
Lemma close_leaves_focus_in_panel_witness :
  activeElement (close (fun e => negb (Nat.eqb e 0)) 9
    (open (fun e => negb (Nat.eqb e 0)) 9 (Some 5) (mk false [] None (Some 0))))
  = Some 5.
Proof.
  exact (proj2 (close_leaves_focus_in_panel (fun e => negb (Nat.eqb e 0)) 9 5 0
                  (mk false [] None (Some 0)) eq_refl eq_refl eq_refl)).
Defined.

End OverlayFacts.

Module DomFacts.
Import Dom.

Lemma querySelector_sel (s : string) (r : root) (e : element) :
  querySelector s r = Some e -> sel e = s.
Proof.
  induction r as [|x r IH]; simpl; [discriminate|].
  destruct (String.eqb (sel x) s) eqn:E.
  - intro H. inversion H; subst. apply String.eqb_eq. exact E.
  - exact IH.
Qed.

Lemma modify_none (s : string) (f : element -> element) (r : root) :
  querySelector s r = None -> modify s f r = r.
Proof.
  induction r as [|x r IH]; simpl; [reflexivity|].
  destruct (String.eqb (sel x) s); [discriminate|].
  intro H. rewrite (IH H). reflexivity.
Qed.

(** [modify] rewrites the first match and nothing else. *)
Lemma modify_split (s : string) (f : element -> element) (r : root) (e : element) :
  querySelector s r = Some e ->
  exists pre post, r = pre ++ e :: post /\ modify s f r = pre ++ f e :: post /\
    Forall (fun x => String.eqb (sel x) s = false) pre.
Proof.
  induction r as [|x r IH]; simpl; [discriminate|].
  destruct (String.eqb (sel x) s) eqn:E.
  - intro H. inversion H; subst. exists [], r. repeat split. constructor.
  - intro H. destruct (IH H) as [pre [post [H1 [H2 H3]]]].
    exists (x :: pre), post. rewrite H2, H1. repeat split. constructor; assumption.
Qed.

Lemma querySelector_modify_other (s s' : string) (f : element -> element) (r : root) :
  s' <> s -> (forall e, sel (f e) = sel e) ->
  querySelector s' (modify s f r) = querySelector s' r.
Proof.
  intros Hne Hf. induction r as [|x r IH]; simpl; [reflexivity|].
  destruct (String.eqb (sel x) s) eqn:E; simpl.
  - apply String.eqb_eq in E. rewrite Hf, E.
    replace (String.eqb s s') with false by (symmetry; apply String.eqb_neq; congruence).
    reflexivity.
  - rewrite IH. reflexivity.
Qed.

Lemma querySelector_modify_same (s : string) (f : element -> element) (r : root) :
  (forall e, sel (f e) = sel e) ->
  querySelector s (modify s f r) = option_map f (querySelector s r).
Proof.
  intro Hf. induction r as [|x r IH]; simpl; [reflexivity|].
  destruct (String.eqb (sel x) s) eqn:E; simpl.
  - rewrite Hf, E. reflexivity.
  - rewrite E. exact IH.
Qed.

Lemma querySelector_app_other (s : string) (r : root) (e : element) :
  querySelector s r <> None -> querySelector s (r ++ [e]) = querySelector s r.
Proof.
  induction r as [|x r IH]; simpl; [congruence|].
  destruct (String.eqb (sel x) s); [reflexivity|exact IH].
Qed.

End DomFacts.

Module CartDrawerFacts.
Import Dom DomFacts CartDrawer.
Local Open Scope string_scope.
Local Open Scope list_scope.
Local Open Scope nat_scope.

Lemma render_count_footer (nd d : root) :
  querySelector FOOTER (render_count nd d) = querySelector FOOTER d.
Proof.
  unfold render_count.
  destruct (querySelector COUNT d), (querySelector COUNT nd); try reflexivity.
  apply querySelector_modify_other; [discriminate|reflexivity].
Qed.

Lemma render_body_footer (nd d : root) :
  querySelector FOOTER (render_body nd d) = querySelector FOOTER d.
Proof.
  unfold render_body.
  destruct (querySelector BODY d), (querySelector BODY nd); try reflexivity.
  apply querySelector_modify_other; [discriminate|reflexivity].
Qed.

Lemma render_count_body (nd d : root) :
  querySelector BODY (render_count nd d) = querySelector BODY d.
Proof.
  unfold render_count.
  destruct (querySelector COUNT d), (querySelector COUNT nd); try reflexivity.
  apply querySelector_modify_other; [discriminate|reflexivity].
Qed.

Lemma render_footer_body (nd d : root) :
  querySelector BODY d <> None ->
  querySelector BODY (render_footer nd d) = querySelector BODY d.
Proof.
  intro Hb. unfold render_footer.
  destruct (querySelector FOOTER nd), (querySelector FOOTER d);
    try destruct (querySelector PANEL d); try reflexivity;
    try (apply querySelector_modify_other; [discriminate|reflexivity]).
  apply querySelector_app_other. exact Hb.
Qed.

Lemma on_unbundled_closed (h : option bundled) (s : t) :
  Overlay.isOpen (ov s) = false -> unbundled h = true ->
  onCartUpdated h s = mk (ov s) true (dom s) (loading s) (refreshes s).
Proof.
  intros Hc Hu. destruct h as [b|]; simpl in *.
  - rewrite Hu. simpl. rewrite Hc. reflexivity.
  - rewrite Hc. reflexivity.
Qed.

Lemma updates_closed_unbundled (es : list (option bundled)) (s : t) :
  Overlay.isOpen (ov s) = false -> forallb unbundled es = true -> es <> [] ->
  updates es s = mk (ov s) true (dom s) (loading s) (refreshes s).
Proof.
  revert s. induction es as [|h es IH]; intros s Hc Hu Hne; [congruence|].
  simpl in Hu. apply andb_true_iff in Hu. destruct Hu as [Hh Hes].
  unfold updates; simpl. rewrite (on_unbundled_closed h s Hc Hh).
  destruct es as [|h' es'].
  - reflexivity.
  - fold (updates (h' :: es') (mk (ov s) true (dom s) (loading s) (refreshes s))).
    rewrite IH; [reflexivity|exact Hc|exact Hes|discriminate].
Qed.

Example bundled_update_renders_when_closed :
  onCartUpdated (Some (bundle "<cart-drawer>.." (Some [el BODY false [Txt "2 items"]])))
    (mk (Overlay.mk false [] None None) false [el BODY false [Txt "1 item"]] false 0)
  = mk (Overlay.mk false [] None None) false [el BODY false [Txt "2 items"]] false 0.
Proof. reflexivity. Qed.

(** C4 (counterexample): a [cart:updated] event carrying the drawer's
    section HTML, published while the drawer is closed, rewrites the closed
    drawer's body and leaves [stale] false. *)
Lemma closed_drawer_rendered_from_bundle :
  let s := mk (Overlay.mk false [] None None) false [el BODY false [Txt "1 item"]] false 0 in
  let s' := onCartUpdated (Some (bundle "<cart-drawer>.." (Some [el BODY false [Txt "2 items"]]))) s in
  Overlay.isOpen (ov s) = false /\ stale s' = false /\ dom s' <> dom s.
Proof. simpl. repeat split. discriminate. Qed.

(** C4 (amended): while the drawer is closed, a [cart:updated] event with
    bundled section HTML is rendered into the drawer at once (the stale flag
    is left as it is); events without it set [stale] and leave the DOM
    unchanged, and the next [open()] after one or more of them starts exactly
    one refresh and clears [stale]. *)
Theorem stale_flag_closed_drawer (focusable : Overlay.elem -> bool) (handleKeydown : nat)
    (firstFocusable : option Overlay.elem) (s : t) (h : bundled)
    (es : list (option bundled)) :
  Overlay.isOpen (ov s) = false ->
  (raw h <> "" ->
     onCartUpdated (Some h) s
     = mk (ov s) (stale s) (renderFromHTML (parsed h) (dom s)) (loading s) (refreshes s)) /\
  (forallb unbundled es = true -> es <> [] ->
     stale (updates es s) = true /\ dom (updates es s) = dom s /\
     refreshes (updates es s) = refreshes s /\
     refreshes (open focusable handleKeydown firstFocusable (updates es s)) = S (refreshes s) /\
     stale (open focusable handleKeydown firstFocusable (updates es s)) = false /\
     dom (open focusable handleKeydown firstFocusable (updates es s)) = dom s /\
     Overlay.isOpen (ov (open focusable handleKeydown firstFocusable (updates es s))) = true).
Proof.
  intro Hc. split.
  - intro Hr. simpl. apply String.eqb_neq in Hr. rewrite Hr. reflexivity.
  - intros Hu Hne. rewrite (updates_closed_unbundled es s Hc Hu Hne).
    unfold open. simpl. repeat split.
    unfold Overlay.open. destruct firstFocusable as [f|]; [unfold Overlay.focus; destruct (focusable f)|];
      reflexivity.
Qed.

Lemma stale_flag_closed_drawer_witness :
  Overlay.isOpen (ov (mk (Overlay.mk false [] None (Some 0)) false [] false 0)) = false /\
  refreshes (open (fun _ => true) 9 (Some 5)
    (updates [None; None] (mk (Overlay.mk false [] None (Some 0)) false [] false 0))) = 1%nat.
Proof.
  split; [reflexivity|].
  destruct (stale_flag_closed_drawer (fun _ => true) 9 (Some 5)
              (mk (Overlay.mk false [] None (Some 0)) false [] false 0) (bundle "x" None)
              [None; None] eq_refl) as [_ H].
  destruct (H eq_refl ltac:(discriminate)) as [_ [_ [_ [R _]]]].
  exact R.
Defined.

End CartDrawerFacts.

Module MergeFacts.
Import Dom DomFacts.
Local Open Scope string_scope.
Local Open Scope list_scope.

Lemma swap_absent (selector : string) (doc live : root) :
  querySelector selector doc = None -> FilterDrawer.swap selector doc live = live.
Proof.
  intro H. unfold FilterDrawer.swap. rewrite H.
  destruct (querySelector selector live); reflexivity.
Qed.

Lemma merge_absent (doc live : root) :
  Forall (fun r => querySelector r doc = None)
    (".filter-drawer-body" :: FilterDrawer.regions) ->
  FilterDrawer.merge doc live = live.
Proof.
  intro H. inversion H as [|? ? Hform H1]; subst.
  inversion H1 as [|? ? Hp H2]; subst.
  inversion H2 as [|? ? Ha H3]; subst.
  inversion H3 as [|? ? Hs H4]; subst.
  inversion H4 as [|? ? Hc _]; subst.
  unfold FilterDrawer.merge, FilterDrawer.swapForm; simpl.
  rewrite (swap_absent _ _ _ Hp), (swap_absent _ _ _ Ha), (swap_absent _ _ _ Hs),
    (swap_absent _ _ _ Hc), (swap_absent _ _ _ Hform).
  reflexivity.
Qed.

(** C5 (counterexample): the incoming cart drawer has no footer; the live
    footer is not left untouched but gets the [hidden] attribute. *)
Lemma missing_footer_hides_live_footer :
  let live := [el CartDrawer.BODY false [Txt "1 item"];
               el CartDrawer.FOOTER false [Markup "<a>"; Txt "Checkout"]] in
  let incoming := [el CartDrawer.BODY false [Txt "Your cart is empty"]] in
  querySelector CartDrawer.FOOTER incoming = None /\
  querySelector CartDrawer.FOOTER (CartDrawer.renderFromHTML (Some incoming) live)
    = Some (el CartDrawer.FOOTER true [Markup "<a>"; Txt "Checkout"]) /\
  querySelector CartDrawer.FOOTER (CartDrawer.renderFromHTML (Some incoming) live)
    <> querySelector CartDrawer.FOOTER live.
Proof. simpl. repeat split. discriminate. Qed.

Lemma querySelector_app_none (sl : string) (r l : root) :
  querySelector sl r = None -> querySelector sl (r ++ l) = querySelector sl l.
Proof.
  induction r as [|x r IH]; simpl; [reflexivity|].
  destruct (String.eqb (sel x) sl); [discriminate|exact IH].
Qed.

Lemma render_body_panel (nd d : root) :
  querySelector CartDrawer.PANEL (CartDrawer.render_body nd d) = querySelector CartDrawer.PANEL d.
Proof.
  unfold CartDrawer.render_body.
  destruct (querySelector CartDrawer.BODY d), (querySelector CartDrawer.BODY nd); try reflexivity.
  apply querySelector_modify_other; [discriminate|reflexivity].
Qed.

Lemma render_body_absent (nd d : root) :
  querySelector CartDrawer.BODY nd = None -> CartDrawer.render_body nd d = d.
Proof.
  intro H. unfold CartDrawer.render_body. rewrite H.
  destruct (querySelector CartDrawer.BODY d); reflexivity.
Qed.

Lemma render_footer_body_any (nd d : root) :
  querySelector CartDrawer.BODY (CartDrawer.render_footer nd d) = querySelector CartDrawer.BODY d.
Proof.
  unfold CartDrawer.render_footer.
  destruct (querySelector CartDrawer.FOOTER nd) as [nf|] eqn:Hnf;
    destruct (querySelector CartDrawer.FOOTER d);
    try destruct (querySelector CartDrawer.PANEL d); try reflexivity;
    try (apply querySelector_modify_other; [discriminate|reflexivity]).
  destruct (querySelector CartDrawer.BODY d) eqn:Hb.
  - rewrite <- Hb. apply querySelector_app_other. congruence.
  - rewrite (querySelector_app_none _ _ _ Hb). simpl.
    rewrite (querySelector_sel _ _ _ Hnf). reflexivity.
Qed.

(** C5 (amended): a region swap (the filter drawer's [swap], the cart
    drawer's body) replaces only the content of the first live match when
    both roots have the region, and leaves the live root unchanged when the
    incoming root lacks it. The cart drawer's footer is toggled instead: an
    incoming fragment without a footer hides the live footer, keeping its
    content; one with a footer replaces the live footer's content and
    unhides it, or, when the live drawer has no footer but has a panel, is
    appended to the panel. After the cart drawer's render, the live body is
    the one it was when the incoming fragment has no body. *)
Theorem region_merge (selector : string) (doc live nd d : root) (f : element) :
  (querySelector selector doc = None -> FilterDrawer.swap selector doc live = live) /\
  (forall c n, querySelector selector live = Some c -> querySelector selector doc = Some n ->
     exists pre post, live = pre ++ c :: post /\
       FilterDrawer.swap selector doc live = pre ++ el (sel c) (hidden c) (kids n) :: post /\
       Forall (fun x => String.eqb (sel x) selector = false) pre) /\
  (forall b nb, querySelector CartDrawer.BODY d = Some b ->
     querySelector CartDrawer.BODY nd = Some nb ->
     querySelector CartDrawer.BODY (CartDrawer.renderFromHTML (Some nd) d)
       = Some (el CartDrawer.BODY (hidden b) (kids nb))) /\
  (querySelector CartDrawer.FOOTER nd = None -> querySelector CartDrawer.FOOTER d = Some f ->
     querySelector CartDrawer.FOOTER (CartDrawer.renderFromHTML (Some nd) d)
       = Some (el CartDrawer.FOOTER true (kids f))) /\
  (forall nf, querySelector CartDrawer.FOOTER nd = Some nf ->
     querySelector CartDrawer.FOOTER d = Some f ->
     querySelector CartDrawer.FOOTER (CartDrawer.renderFromHTML (Some nd) d)
       = Some (el CartDrawer.FOOTER false (kids nf))) /\
  (querySelector CartDrawer.BODY nd = None ->
     querySelector CartDrawer.BODY (CartDrawer.renderFromHTML (Some nd) d)
       = querySelector CartDrawer.BODY d) /\
  (forall nf, querySelector CartDrawer.FOOTER nd = Some nf ->
     querySelector CartDrawer.FOOTER d = None -> querySelector CartDrawer.PANEL d <> None ->
     querySelector CartDrawer.FOOTER (CartDrawer.renderFromHTML (Some nd) d) = Some nf).
Proof.
  split; [|split; [|split; [|split; [|split; [|split]]]]].
  - apply swap_absent.
  - intros c n Hc Hn. unfold FilterDrawer.swap. rewrite Hc, Hn.
    destruct (modify_split selector (set_innerHTML (kids n)) live c Hc)
      as [pre [post [H1 [H2 H3]]]].
    exists pre, post. repeat split; assumption.
  - intros b nb Hb Hnb. simpl.
    rewrite CartDrawerFacts.render_count_body.
    assert (E : querySelector CartDrawer.BODY (CartDrawer.render_body nd d)
                = Some (el CartDrawer.BODY (hidden b) (kids nb))).
    { unfold CartDrawer.render_body. rewrite Hb, Hnb.
      rewrite querySelector_modify_same by reflexivity. rewrite Hb.
      unfold set_innerHTML; simpl. rewrite (querySelector_sel _ _ _ Hb). reflexivity. }
    rewrite CartDrawerFacts.render_footer_body; [exact E|congruence].
  - intros Hnf Hf. simpl. rewrite CartDrawerFacts.render_count_footer.
    unfold CartDrawer.render_footer. rewrite Hnf.
    rewrite CartDrawerFacts.render_body_footer, Hf.
    rewrite querySelector_modify_same by reflexivity.
    rewrite CartDrawerFacts.render_body_footer, Hf.
    unfold set_innerHTML, set_hidden; simpl. rewrite (querySelector_sel _ _ _ Hf). reflexivity.
  - intros nf Hnf Hf. simpl. rewrite CartDrawerFacts.render_count_footer.
    unfold CartDrawer.render_footer. rewrite Hnf.
    rewrite CartDrawerFacts.render_body_footer, Hf.
    rewrite querySelector_modify_same by reflexivity.
    rewrite CartDrawerFacts.render_body_footer, Hf.
    unfold set_innerHTML, set_hidden; simpl. rewrite (querySelector_sel _ _ _ Hf). reflexivity.
  - intros Hnb. simpl. rewrite CartDrawerFacts.render_count_body, render_footer_body_any.
    rewrite (render_body_absent _ _ Hnb). reflexivity.
  - intros nf Hnf Hd Hp. simpl. rewrite CartDrawerFacts.render_count_footer.
    unfold CartDrawer.render_footer. rewrite Hnf, CartDrawerFacts.render_body_footer, Hd,
      render_body_panel.
    destruct (querySelector CartDrawer.PANEL d); [|congruence].
    assert (H0 : querySelector CartDrawer.FOOTER (CartDrawer.render_body nd d) = None)
      by (rewrite CartDrawerFacts.render_body_footer; exact Hd).
    rewrite (querySelector_app_none _ _ _ H0). simpl.
    rewrite (querySelector_sel _ _ _ Hnf), String.eqb_refl. reflexivity.
Qed.

End MergeFacts.

Module RefreshFailureFacts.
Import Dom.
Local Open Scope string_scope.
Local Open Scope list_scope.

Example cart_refresh_404 :
  fst (CartDrawer.refresh_complete (Fetch.Http 404 (Some None))
         (CartDrawer.refresh_start
            (CartDrawer.mk (Overlay.mk true [] None None) false [el CartDrawer.BODY false []] false 0)))
  = CartDrawer.mk (Overlay.mk true [] None None) false [el CartDrawer.BODY false []] false 1.
Proof. reflexivity. Qed.

(** C7: a fragment refresh that fails (rejected [fetch], non-success
    status, unreadable body, or a body without the expected regions) leaves
    the component's DOM as it was, so no partial merge and no error element
    is shown, and removes the loading class: for the cart drawer's
    [refresh()] and for the filter drawer's [applyFilters]. *)
Theorem failed_refresh_absorbed :
  (forall resp s, CartDrawer.refresh_failure resp ->
     CartDrawer.dom (fst (CartDrawer.refresh_complete resp s)) = CartDrawer.dom s /\
     CartDrawer.loading (fst (CartDrawer.refresh_complete resp s)) = false /\
     CartDrawer.ov (fst (CartDrawer.refresh_complete resp s)) = CartDrawer.ov s /\
     CartDrawer.stale (fst (CartDrawer.refresh_complete resp s)) = CartDrawer.stale s) /\
  (forall focusable handleKeydown u resp s sid,
     FilterDrawer.sectionId s = Some sid -> FilterDrawer.refresh_failure resp ->
     FilterDrawer.section (FilterDrawer.applyFilters focusable handleKeydown u resp s)
       = FilterDrawer.section s /\
     FilterDrawer.loading (FilterDrawer.applyFilters focusable handleKeydown u resp s) = false).
Proof.
  split.
  - intros resp s Hf. destruct resp as [|status body]; simpl; [repeat split|].
    destruct (Fetch.ok status) eqn:Hok; simpl; [|repeat split].
    destruct Hf as [Hf|[Hf|Hf]]; [congruence| |]; subst; simpl; repeat split.
  - intros focusable handleKeydown u resp s sid Hs Hf.
    unfold FilterDrawer.applyFilters. rewrite Hs.
    destruct resp as [|status body]; [split; reflexivity|].
    destruct (Fetch.ok status) eqn:Hok; simpl; [|split; reflexivity].
    destruct Hf as [Hf|[Hf|[doc [Hd Hr]]]]; [congruence|subst; split; reflexivity|].
    subst. rewrite (MergeFacts.merge_absent doc (FilterDrawer.section s) Hr).
    destruct (negb _); destruct (Overlay.isOpen _); split; reflexivity.
Qed.

End RefreshFailureFacts.

Module UrlFacts.
Import Url.
Local Open Scope string_scope.

Lemma append_empty_r (a : string) : a ++ "" = a.
Proof. induction a as [|c a IH]; simpl; [reflexivity|]. rewrite IH. reflexivity. Qed.

Lemma plus_to_space_app (a b : string) :
  plus_to_space (a ++ b) = plus_to_space a ++ plus_to_space b.
Proof. induction a as [|c a IH]; simpl; [reflexivity|]. rewrite IH. reflexivity. Qed.

Lemma has_byte_app (c : ascii) (a b : string) :
  has_byte c (a ++ b) = has_byte c a || has_byte c b.
Proof.
  induction a as [|c' a IH]; simpl; [reflexivity|]. rewrite IH, orb_assoc. reflexivity.
Qed.

(** Every byte decodes back from its encoding, whatever follows it. *)
Lemma decode_encode_byte (c : ascii) (rest : string) :
  percent_decode (plus_to_space (encode_byte c ++ rest))
  = String c (percent_decode (plus_to_space rest)).
Proof.
  rewrite plus_to_space_app.
  destruct c as [[] [] [] [] [] [] [] []]; reflexivity.
Qed.

Lemma decode_encode (s : string) : percent_decode (plus_to_space (encode s)) = s.
Proof.
  induction s as [|c s IH]; simpl; [reflexivity|].
  rewrite decode_encode_byte, IH. reflexivity.
Qed.

Lemma encode_byte_no_sep (c : ascii) :
  has_byte "="%char (encode_byte c) = false /\ has_byte "&"%char (encode_byte c) = false.
Proof. destruct c as [[] [] [] [] [] [] [] []]; split; reflexivity. Qed.

Lemma encode_no_sep (s : string) :
  has_byte "="%char (encode s) = false /\ has_byte "&"%char (encode s) = false.
Proof.
  induction s as [|c s [IH1 IH2]]; simpl; [split; reflexivity|].
  destruct (encode_byte_no_sep c) as [H1 H2].
  rewrite !has_byte_app, H1, H2, IH1, IH2. split; reflexivity.
Qed.

Lemma break_at_app (sep : ascii) (a b : string) :
  has_byte sep a = false ->
  break_at sep (a ++ b) = let (x, y) := break_at sep b in (a ++ x, y).
Proof.
  induction a as [|c a IH]; simpl; intro H.
  - destruct (break_at sep b); reflexivity.
  - apply orb_false_elim in H. destruct H as [Hc Ha].
    rewrite Hc, (IH Ha). destruct (break_at sep b); reflexivity.
Qed.

Lemma split_on_app (sep : ascii) (a b : string) :
  has_byte sep a = false -> split_on sep (a ++ String sep b) = a :: split_on sep b.
Proof.
  induction a as [|c a IH]; simpl; intro H.
  - rewrite Ascii.eqb_refl. reflexivity.
  - apply orb_false_elim in H. destruct H as [Hc Ha]. rewrite Hc, (IH Ha). reflexivity.
Qed.

Lemma split_on_none (sep : ascii) (a : string) :
  has_byte sep a = false -> split_on sep a = [a].
Proof.
  induction a as [|c a IH]; simpl; intro H; [reflexivity|].
  apply orb_false_elim in H. destruct H as [Hc Ha]. rewrite Hc, (IH Ha). reflexivity.
Qed.

Lemma serialize_pair_no_amp (p : string * string) : has_byte "&"%char (serialize_pair p) = false.
Proof.
  destruct p as [k v]. unfold serialize_pair. simpl.
  rewrite !has_byte_app. simpl.
  rewrite (proj2 (encode_no_sep k)), (proj2 (encode_no_sep v)). reflexivity.
Qed.

Lemma serialize_pair_nonempty (p : string * string) : String.eqb (serialize_pair p) "" = false.
Proof.
  destruct p as [k v]. unfold serialize_pair. simpl. destruct (encode k); reflexivity.
Qed.

Lemma parse_pair_serialize_pair (p : string * string) : parse_pair (serialize_pair p) = p.
Proof.
  destruct p as [k v]. unfold parse_pair, serialize_pair. simpl.
  rewrite (break_at_app _ _ _ (proj1 (encode_no_sep k))). simpl.
  rewrite append_empty_r, !decode_encode. reflexivity.
Qed.

Lemma split_serialize (q : list (string * string)) :
  q <> [] -> split_on "&"%char (serialize q) = map serialize_pair q.
Proof.
  induction q as [|p q IH]; intro Hne; [congruence|].
  destruct q as [|p' q'].
  - simpl. apply split_on_none, serialize_pair_no_amp.
  - change (split_on "&"%char (serialize_pair p ++ String "&"%char (serialize (p' :: q')))
            = map serialize_pair (p :: p' :: q')).
    rewrite (split_on_app _ _ _ (serialize_pair_no_amp p)).
    rewrite IH by discriminate. reflexivity.
Qed.

(** The parser reads back what the serializer wrote. *)
Lemma parse_serialize (q : list (string * string)) : parse (serialize q) = q.
Proof.
  destruct q as [|p q']; [reflexivity|].
  unfold parse. rewrite split_serialize by discriminate.
  assert (Hf : forall l : list (string * string),
             filter (fun seq => negb (String.eqb seq "")) (map serialize_pair l)
             = map serialize_pair l).
  { induction l as [|x l IH]; simpl; [reflexivity|].
    rewrite serialize_pair_nonempty. simpl. rewrite IH. reflexivity. }
  rewrite Hf, map_map.
  transitivity (map (fun x => x) (p :: q')).
  - apply map_ext. apply parse_pair_serialize_pair.
  - apply map_id.
Qed.

Lemma serialize_empty (q : list (string * string)) : serialize q = "" -> q = [].
Proof.
  destruct q as [|p q']; intro H; [reflexivity|].
  exfalso. pose proof (serialize_pair_nonempty p) as Hp.
  destruct q' as [|p' q'']; simpl in H.
  - rewrite H in Hp. discriminate.
  - destruct (serialize_pair p); [discriminate|discriminate].
Qed.

(** After the update steps, [searchParams] is the list they serialized. *)
Lemma query_update_steps (q : list (string * string)) (u : url) :
  query (update_steps q u) = q.
Proof.
  unfold query, update_steps. simpl.
  destruct (serialize q) eqn:E.
  - rewrite (serialize_empty q E). reflexivity.
  - rewrite <- E. apply parse_serialize.
Qed.

Lemma query_set (k v : string) (u : url) : query (set k v u) = set_in k v (query u).
Proof. apply query_update_steps. Qed.

Lemma query_delete (k : string) (u : url) :
  query (delete k u) = filter (fun p => negb (String.eqb (fst p) k)) (query u).
Proof. apply query_update_steps. Qed.

Lemma filter_twice {A : Type} (f : A -> bool) (l : list A) : filter f (filter f l) = filter f l.
Proof.
  induction l as [|x l IH]; simpl; [reflexivity|].
  destruct (f x) eqn:E; simpl; [rewrite E, IH; reflexivity|exact IH].
Qed.

Lemma filter_set_in_other (k v : string) (q : list (string * string)) :
  filter (fun p => negb (String.eqb (fst p) k)) (set_in k v q)
  = filter (fun p => negb (String.eqb (fst p) k)) q.
Proof.
  induction q as [|[a b] q IH]; simpl.
  - rewrite String.eqb_refl. reflexivity.
  - destruct (String.eqb a k) eqn:E; simpl.
    + rewrite String.eqb_refl. simpl. apply filter_twice.
    + rewrite E. simpl. rewrite IH. reflexivity.
Qed.

Lemma filter_set_in_same (k v : string) (q : list (string * string)) :
  filter (fun p => String.eqb (fst p) k) (set_in k v q) = [(k, v)].
Proof.
  induction q as [|[a b] q IH]; simpl.
  - rewrite String.eqb_refl. reflexivity.
  - destruct (String.eqb a k) eqn:E; simpl.
    + rewrite String.eqb_refl. f_equal. clear IH.
      induction q as [|[c d] q IHq]; simpl; [reflexivity|].
      destruct (String.eqb c k) eqn:Ec; simpl; [exact IHq|]. rewrite Ec. exact IHq.
    + rewrite E. exact IH.
Qed.

End UrlFacts.

Module FilterDrawerFacts.
Import Url.
Local Open Scope string_scope.
Local Open Scope list_scope.


Example pill_click_pushes :
  let s := FilterDrawer.mk (Overlay.mk false [] None None) (Some "main") [] false
             (mk "https://shop.example" "/collections/all" (Some "filter.v.color=red") None)
             [] [] in
  FilterDrawer.history
    (FilterDrawer.applyFilters (fun _ => true) 9
       (mk "https://shop.example" "/collections/all" None None) (Fetch.Http 200 (Some [])) s)
  = ["https://shop.example/collections/all"].
Proof. reflexivity. Qed.




End FilterDrawerFacts.

Module ProductFormFacts.
Import ProductForm.
Local Open Scope string_scope.
Local Open Scope list_scope.

Example add_ok_dispatches :
  events (handleSubmit (AddHttp 200 (JsonBody None)) (mk (Some (mkAlert "" true)) []))
  = ["cart:item-added"].
Proof. reflexivity. Qed.

(** C6 (counterexample): a 422 response whose JSON [description] is the
    empty string shows the fallback text, not the description. *)
Lemma empty_description_shows_fallback :
  errorContainer (handleSubmit (AddHttp 422 (JsonBody (Some "")))
                   (mk (Some (mkAlert "" true)) []))
  = Some (mkAlert "Failed to add to cart" false).
Proof. reflexivity. Qed.

(** C6 (amended): when [/cart/add.js] answers with a non-success status,
    the form's alert region is shown with [hidden] cleared and no event is
    dispatched. Its text is the JSON body's [description] when that is a
    non-empty string, the fallback 'Failed to add to cart' when it is empty
    or absent, and the parse error's message when the body is not JSON. *)
Theorem add_error_shows_description (s : t) (a : alert) (status : Z) :
  errorContainer s = Some a -> Fetch.ok status = false ->
  (forall d, d <> "" ->
     handleSubmit (AddHttp status (JsonBody (Some d))) s = mk (Some (mkAlert d false)) (events s)) /\
  handleSubmit (AddHttp status (JsonBody (Some ""))) s
    = mk (Some (mkAlert "Failed to add to cart" false)) (events s) /\
  handleSubmit (AddHttp status (JsonBody None)) s
    = mk (Some (mkAlert "Failed to add to cart" false)) (events s) /\
  (forall m, handleSubmit (AddHttp status (InvalidJson m)) s = mk (Some (mkAlert m false)) (events s)).
Proof.
  intros Ha Hok. unfold handleSubmit, showError, clearError, error_message.
  rewrite Hok, Ha. simpl.
  split; [|split; [|split]]; try reflexivity.
  intros d Hd. apply String.eqb_neq in Hd. rewrite Hd. reflexivity.
Qed.

Lemma add_error_shows_description_witness :
  handleSubmit (AddHttp 422 (JsonBody (Some "Only 2 available"))) (mk (Some (mkAlert "" true)) [])
  = mk (Some (mkAlert "Only 2 available" false)) [].
Proof.
  assert (H : "Only 2 available" <> "") by discriminate.
  exact (proj1 (add_error_shows_description (mk (Some (mkAlert "" true)) []) (mkAlert "" true) 422
           eq_refl eq_refl) "Only 2 available" H).
Defined.

End ProductFormFacts.

Module KeydownFacts.
Import Overlay Keydown.
Local Open Scope nat_scope.

Lemma last_default (g : elem) (rest : list elem) (a b : elem) :
  last (g :: rest) a = last (g :: rest) b.
Proof.
  revert g. induction rest as [|h rest IH]; intros g; [reflexivity|].
  change (last (h :: rest) a = last (h :: rest) b). apply IH.
Qed.

Lemma last_in (f : elem) (rest : list elem) : In (last (f :: rest) f) (f :: rest).
Proof.
  revert f. induction rest as [|g rest IH]; intros f; [left; reflexivity|].
  change (In (last (g :: rest) f) (f :: g :: rest)).
  rewrite (last_default g rest f g). right. apply IH.
Qed.

Lemma focus_fields (focusable : elem -> bool) (e : elem) (s : t) :
  focusable e = true ->
  focus focusable e s = mk (isOpen s) (keyListeners s) (previouslyFocused s) (Some e).
Proof. intros H. unfold focus. rewrite H. reflexivity. Qed.

(** X1: whenever [handleKeydown] prevents the default action, the key is
    Tab, the overlay stays as it was (open state, [keydown] listeners, the
    element to restore focus to) and focus lands on one of the focusable
    elements of the overlay, provided they can all take focus. *)
Theorem prevented_tab_stays_inside (focusable : elem -> bool) (hk : nat)
    (focusables : list elem) (ev : keyevent) (s s' : t) :
  (forall e, In e focusables -> focusable e = true) ->
  handleKeydown focusable hk focusables ev s = (s', true) ->
  key_of ev = Tab /\ isOpen s' = isOpen s /\ keyListeners s' = keyListeners s /\
  previouslyFocused s' = previouslyFocused s /\
  exists a, activeElement s' = Some a /\ In a focusables.
Proof.
  intros Hc H. unfold handleKeydown in H.
  destruct (key_of ev) eqn:Ek; try discriminate H.
  destruct focusables as [|f rest]; [discriminate H|].
  destruct (shiftKey ev && is_active s f).
  - injection H as <-.
    change (match rest with [] => f | _ :: _ => last rest f end) with (last (f :: rest) f).
    rewrite (focus_fields focusable _ s (Hc _ (last_in f rest))).
    simpl. repeat split; auto. exists (last (f :: rest) f). split; [reflexivity|apply last_in].
  - destruct (negb (shiftKey ev) && is_active s (last (f :: rest) f)); [|discriminate H].
    injection H as <-. rewrite (focus_fields focusable _ s (Hc f (or_introl eq_refl))).
    simpl. repeat split; auto. exists f. split; [reflexivity|left; reflexivity].
Qed.

Lemma prevented_tab_stays_inside_witness :
  (forall e, In e [1; 2; 3] -> (fun _ : elem => true) e = true) /\
  handleKeydown (fun _ => true) 7 [1; 2; 3] (kev Tab false) (mk true [7] (Some 9) (Some 3))
  = (mk true [7] (Some 9) (Some 1), true) /\
  key_of (kev Tab false) = Tab /\ isOpen (mk true [7] (Some 9) (Some 1)) = true /\
  keyListeners (mk true [7] (Some 9) (Some 1)) = [7] /\
  previouslyFocused (mk true [7] (Some 9) (Some 1)) = Some 9 /\
  exists a, activeElement (mk true [7] (Some 9) (Some 1)) = Some a /\ In a [1; 2; 3].
Proof.
  assert (Hc : forall e, In e [1; 2; 3] -> (fun _ : elem => true) e = true) by reflexivity.
  assert (H : handleKeydown (fun _ => true) 7 [1; 2; 3] (kev Tab false) (mk true [7] (Some 9) (Some 3))
              = (mk true [7] (Some 9) (Some 1), true)) by reflexivity.
  split; [exact Hc|]. split; [exact H|].
  exact (prevented_tab_stays_inside (fun _ => true) 7 [1; 2; 3] (kev Tab false)
           (mk true [7] (Some 9) (Some 3)) (mk true [7] (Some 9) (Some 1)) Hc H).
Defined.

(** X2: focus wraps around the overlay, with the default action
    prevented: Shift+Tab on the first element of the list moves focus to the
    last one, and Tab on the last one moves it to the first, when the target
    can take focus. When it cannot (the list also holds, for instance, the
    controls of the hidden cart footer), the default action is still
    prevented and focus stays where it was. *)
Theorem tab_wraps_around (focusable : elem -> bool) (hk : nat) (f : elem)
    (rest : list elem) (s : t) :
  (is_active s f = true -> focusable (last (f :: rest) f) = true ->
   handleKeydown focusable hk (f :: rest) (kev Tab true) s
   = (mk (isOpen s) (keyListeners s) (previouslyFocused s) (Some (last (f :: rest) f)), true)) /\
  (is_active s f = true -> focusable (last (f :: rest) f) = false ->
   handleKeydown focusable hk (f :: rest) (kev Tab true) s = (s, true)) /\
  (is_active s (last (f :: rest) f) = true -> focusable f = true ->
   handleKeydown focusable hk (f :: rest) (kev Tab false) s
   = (mk (isOpen s) (keyListeners s) (previouslyFocused s) (Some f), true)) /\
  (is_active s (last (f :: rest) f) = true -> focusable f = false ->
   handleKeydown focusable hk (f :: rest) (kev Tab false) s = (s, true)).
Proof.
  split; [|split; [|split]]; intros Ha Hl; cbv beta iota zeta delta [handleKeydown key_of shiftKey].
  - rewrite Ha. cbv beta iota delta [andb]. rewrite (focus_fields focusable _ s Hl). reflexivity.
  - rewrite Ha. cbv beta iota delta [andb]. unfold focus. rewrite Hl. reflexivity.
  - destruct (is_active s f); cbv beta iota delta [andb negb]; rewrite Ha;
      rewrite (focus_fields focusable _ s Hl); reflexivity.
  - destruct (is_active s f); cbv beta iota delta [andb negb]; rewrite Ha;
      unfold focus; rewrite Hl; reflexivity.
Qed.

(** The last listed element, 3, cannot take focus: Shift+Tab on the first
    one is swallowed. *)
Lemma tab_wraps_around_witness :
  handleKeydown (fun e => negb (Nat.eqb e 3)) 7 [1; 2; 3] (kev Tab true) (mk true [7] None (Some 1))
  = (mk true [7] None (Some 1), true).
Proof.
  exact (proj1 (proj2 (tab_wraps_around (fun e => negb (Nat.eqb e 3)) 7 1 [2; 3]
                         (mk true [7] None (Some 1)))) eq_refl eq_refl).
Defined.

End KeydownFacts.

Module SearchDrawerFacts.
Import SearchDrawer SearchDrawerInv.
Local Open Scope nat_scope.

Lemma dropws_head (l : list Ascii.ascii) : head_ok (dropws l).
Proof.
  induction l as [|c l IH]; simpl; [exact I|].
  destruct (is_ws c) eqn:E; [exact IH|exact E].
Qed.

Lemma dropws_fix (l : list Ascii.ascii) : head_ok l -> dropws l = l.
Proof. destruct l as [|c l]; simpl; [reflexivity|intros H; rewrite H; reflexivity]. Qed.

Lemma dropws_split (l : list Ascii.ascii) : exists w, l = w ++ dropws l.
Proof.
  induction l as [|c l [w IH]]; simpl; [exists []; reflexivity|].
  destruct (is_ws c); [exists (c :: w); simpl; f_equal; exact IH|exists []; reflexivity].
Qed.

Lemma trim_list_idem (l : list Ascii.ascii) : trim_list (trim_list l) = trim_list l.
Proof.
  unfold trim_list.
  set (l1 := dropws l). set (m := dropws (rev l1)).
  assert (Hm : dropws (rev m) = rev m).
  { apply dropws_fix. destruct (dropws_split (rev l1)) as [w Hw]. fold m in Hw.
    assert (Hl1 : l1 = rev m ++ rev w).
    { rewrite <- (rev_involutive l1), Hw, rev_app_distr. reflexivity. }
    pose proof (dropws_head l) as Hh. fold l1 in Hh. rewrite Hl1 in Hh.
    destruct (rev m) as [|c r]; [exact I|exact Hh]. }
  rewrite Hm, rev_involutive. rewrite (dropws_fix m (dropws_head _)). reflexivity.
Qed.

Lemma trim_idem (v : string) : trim (trim v) = trim v.
Proof.
  unfold trim. rewrite list_ascii_of_string_of_list_ascii, trim_list_idem. reflexivity.
Qed.

Lemma advance_inv (now : Z) (s : t) : inv s -> inv (advance now s).
Proof.
  intros [Hq Ht]. unfold advance.
  destruct (debounceTimer s) as [[d q]|] eqn:E; [|split; [exact Hq|rewrite E; exact Ht]].
  destruct (d <=? now)%Z; [|split; [exact Hq|rewrite E; exact Ht]].
  split; [|exact I]. simpl. apply Forall_app. split; [exact Hq|constructor; [exact Ht|constructor]].
Qed.

Lemma step_inv (s : t) (e : event) : inv s -> inv (step s e).
Proof.
  intros H. destruct e as [now v|now|e]; simpl.
  - unfold onInput. pose proof (advance_inv now s H) as [Hq _].
    destruct (String.length (trim v) <? 2) eqn:E; split; simpl; auto.
    split; [apply Nat.ltb_ge; exact E|apply trim_idem].
  - apply advance_inv, H.
  - exact H.
Qed.

Lemma run_inv (es : list event) (s : t) : inv s -> inv (run s es).
Proof.
  revert s. induction es as [|e es IH]; intros s H; [exact H|].
  simpl. apply IH, step_inv, H.
Qed.

(** X4: every search request the drawer sends is for a trimmed query of at
    least two characters, whatever the user types and however the network
    answers. *)
Theorem search_queries_trimmed (es : list event) :
  Forall (fun q => 2 <= String.length q /\ trim q = q) (queries (run init es)).
Proof. exact (proj1 (run_inv es init (conj (Forall_nil _) I))). Qed.


(** X5: shortening the input below two characters empties the results and
    cancels the pending timer, but does not invalidate a search whose
    response body is being read: when it arrives, its results are rendered
    again. *)
Theorem short_input_keeps_reading_search (now : Z) (v : string) (tok : nat)
    (r : FragmentGuard.request) (s : t) :
  FragmentGuard.find_req tok FragmentGuard.AwaitBody (FragmentGuard.inflight (guard s)) = Some r ->
  String.length (trim v) < 2 ->
  FragmentGuard.shown (guard (onInput now v s)) = None /\
  debounceTimer (onInput now v s) = None /\
  FragmentGuard.shown (guard (step (onInput now v s) (Net (FragmentGuard.BodyDone tok))))
  = Some (FragmentGuard.payload r).
Proof.
  intros Hr Hl. apply Nat.ltb_lt in Hl.
  assert (Ha : FragmentGuard.find_req tok FragmentGuard.AwaitBody
                 (FragmentGuard.inflight (guard (advance now s))) = Some r).
  { unfold advance. destruct (debounceTimer s) as [[d q]|]; [|exact Hr].
    destruct (d <=? now)%Z; [|exact Hr]. simpl. rewrite Bool.andb_false_r. exact Hr. }
  unfold onInput. rewrite Hl. simpl. rewrite Ha. split; [reflexivity|split; reflexivity].
Qed.

Lemma short_input_keeps_reading_search_witness :
  FragmentGuard.find_req 1 FragmentGuard.AwaitBody (FragmentGuard.inflight (guard
    (run init [Input 0 "ab"; Tick 300; Net (FragmentGuard.FetchDone 1 true)])))
  = Some (FragmentGuard.req 1 1 FragmentGuard.AwaitBody) /\
  String.length (trim " a ") < 2 /\
  FragmentGuard.shown (guard (step (onInput 400 " a "
    (run init [Input 0 "ab"; Tick 300; Net (FragmentGuard.FetchDone 1 true)]))
    (Net (FragmentGuard.BodyDone 1))))
  = Some 1.
Proof.
  assert (Hr : FragmentGuard.find_req 1 FragmentGuard.AwaitBody (FragmentGuard.inflight (guard
    (run init [Input 0 "ab"; Tick 300; Net (FragmentGuard.FetchDone 1 true)])))
               = Some (FragmentGuard.req 1 1 FragmentGuard.AwaitBody)) by reflexivity.
  assert (Hl : String.length (trim " a ") < 2) by (vm_compute; lia).
  split; [exact Hr|]. split; [exact Hl|].
  exact (proj2 (proj2 (short_input_keeps_reading_search 400 " a " 1 _ _ Hr Hl))).
Defined.

(** X18: typing again within 300 ms of the previous keystroke sends no
    search for the earlier value: the only searches sent by the two key
    strokes are those of timers already due at the first one. *)
Theorem rapid_input_sends_nothing (t1 t2 : Z) (v1 v2 : string) (s : t) :
  (t2 < t1 + 300)%Z ->
  queries (step (step s (Input t1 v1)) (Input t2 v2)) = queries (advance t1 s).
Proof.
  intros Ht.
  assert (Hq : forall now v s0, queries (onInput now v s0) = queries (advance now s0)).
  { intros now v s0. unfold onInput. destruct (String.length (trim v) <? 2); reflexivity. }
  simpl. rewrite Hq. unfold onInput.
  destruct (String.length (trim v1) <? 2); [reflexivity|].
  unfold advance at 1. simpl. rewrite (proj2 (Z.leb_gt (t1 + 300) t2) Ht). reflexivity.
Qed.

Lemma rapid_input_sends_nothing_witness :
  queries (step (step init (Input 0 "sh")) (Input 120 "shirt")) = [].
Proof.
  etransitivity; [exact (rapid_input_sends_nothing 0 120 "sh" "shirt" init ltac:(lia))|].
  reflexivity.
Defined.

End SearchDrawerFacts.

Module EscapeHtmlFacts.
Import EscapeHtml.
Local Open Scope char_scope.

Lemma escape_char_cases (c : Ascii.ascii) :
  (c = "&" /\ escape_char c = list_ascii_of_string "&amp;") \/
  (c = nbsp /\ escape_char c = list_ascii_of_string "&nbsp;") \/
  (c = "<" /\ escape_char c = list_ascii_of_string "&lt;") \/
  (c = ">" /\ escape_char c = list_ascii_of_string "&gt;") \/
  (c <> "&" /\ c <> nbsp /\ c <> "<" /\ c <> ">" /\ escape_char c = [c]).
Proof.
  unfold escape_char.
  destruct (Ascii.eqb_spec c "&"); [left; auto|].
  destruct (Ascii.eqb_spec c nbsp); [right; left; auto|].
  destruct (Ascii.eqb_spec c "<"); [right; right; left; auto|].
  destruct (Ascii.eqb_spec c ">"); [right; right; right; left; auto|].
  right; right; right; right; auto.
Qed.

(** X6: the escaped text contains no [<] and no [>], so whatever the search
    result titles hold, inserting it into [innerHTML] opens or closes no
    tag. *)
Theorem escapeHtml_no_angle_brackets (s : string) (c : Ascii.ascii) :
  In c (list_ascii_of_string (escapeHtml s)) -> c <> "<" /\ c <> ">".
Proof.
  unfold escapeHtml. rewrite list_ascii_of_string_of_list_ascii.
  induction (list_ascii_of_string s) as [|x l IH]; simpl; [intros []|].
  intros H. apply in_app_or in H. destruct H as [H|H]; [|exact (IH H)].
  destruct (escape_char_cases x) as [[_ E]|[[_ E]|[[_ E]|[[_ E]|(_ & _ & Hlt & Hgt & E)]]]];
    rewrite E in H; simpl in H;
    repeat (destruct H as [<-|H]; [split; discriminate|]); try contradiction.
  destruct H as [<-|[]]. auto.
Qed.

Lemma escapeHtml_no_angle_brackets_witness :
  In "l"%char (list_ascii_of_string (escapeHtml "a<b")) /\ "l"%char <> "<" /\ "l"%char <> ">".
Proof.
  assert (H : In "l"%char (list_ascii_of_string (escapeHtml "a<b"))) by (simpl; auto 10).
  split; [exact H|]. exact (escapeHtml_no_angle_brackets "a<b" "l" H).
Defined.

Lemma escape_char_app_inj (c d : Ascii.ascii) (x y : list Ascii.ascii) :
  escape_char c ++ x = escape_char d ++ y -> c = d /\ x = y.
Proof.
  intros H.
  destruct (escape_char_cases c) as [[-> E]|[[-> E]|[[-> E]|[[-> E]|(H1 & H2 & H3 & H4 & E)]]]];
  destruct (escape_char_cases d) as [[-> E']|[[-> E']|[[-> E']|[[-> E']|(H1' & H2' & H3' & H4' & E')]]]];
  rewrite E in H; try rewrite E' in H; simpl in H; injection H; intros; subst;
  try discriminate; try congruence; auto.
Qed.

(** X7: [escapeHtml] is injective: two different texts never produce the
    same markup, so the escaped text always displays as the original. *)
Theorem escapeHtml_injective (s1 s2 : string) :
  escapeHtml s1 = escapeHtml s2 -> s1 = s2.
Proof.
  unfold escapeHtml. intros H.
  apply (f_equal list_ascii_of_string) in H.
  rewrite !list_ascii_of_string_of_list_ascii in H.
  rewrite <- (string_of_list_ascii_of_string s1), <- (string_of_list_ascii_of_string s2).
  f_equal. revert H.
  generalize (list_ascii_of_string s2) as l2. induction (list_ascii_of_string s1) as [|c l1 IH];
    intros [|d l2] H; simpl in H.
  - reflexivity.
  - destruct (escape_char_cases d) as [[_ E]|[[_ E]|[[_ E]|[[_ E]|(_ & _ & _ & _ & E)]]]];
      rewrite E in H; discriminate H.
  - destruct (escape_char_cases c) as [[_ E]|[[_ E]|[[_ E]|[[_ E]|(_ & _ & _ & _ & E)]]]];
      rewrite E in H; discriminate H.
  - destruct (escape_char_app_inj c d _ _ H) as [-> H']. f_equal. apply IH, H'.
Qed.

Lemma escapeHtml_injective_witness :
  escapeHtml "a<b" = escapeHtml "a<b" /\ "a<b"%string = "a<b"%string.
Proof.
  split; [reflexivity|]. exact (escapeHtml_injective "a<b" "a<b" eq_refl).
Defined.

End EscapeHtmlFacts.

Module UrlGetFacts.
Import FilterUrls.
Local Open Scope string_scope.
Local Open Scope list_scope.

Lemma get_filter_other (k k' : string) (q : list (string * string)) :
  k <> k' -> get k (filter (fun p => negb (String.eqb (fst p) k')) q) = get k q.
Proof.
  intros Hk. induction q as [|[a v] q IH]; simpl; [reflexivity|].
  destruct (String.eqb_spec a k'); simpl.
  - subst. destruct (String.eqb_spec k' k); [congruence|exact IH].
  - destruct (String.eqb a k); [reflexivity|exact IH].
Qed.

Lemma get_set_in_same (k v : string) (q : list (string * string)) :
  get k (Url.set_in k v q) = Some v.
Proof.
  induction q as [|[a w] q IH]; simpl; [rewrite String.eqb_refl; reflexivity|].
  destruct (String.eqb a k) eqn:E; simpl; [rewrite String.eqb_refl; reflexivity|].
  rewrite E. exact IH.
Qed.

Lemma get_set_in_other (k k' v : string) (q : list (string * string)) :
  k <> k' -> get k (Url.set_in k' v q) = get k q.
Proof.
  intros Hk. induction q as [|[a w] q IH]; simpl.
  - destruct (String.eqb_spec k' k); [congruence|reflexivity].
  - destruct (String.eqb_spec a k'); simpl.
    + subst. destruct (String.eqb_spec k' k); [congruence|]. apply get_filter_other, Hk.
    + destruct (String.eqb a k); [reflexivity|exact IH].
Qed.

End UrlGetFacts.

Module VariantChangeFacts.
Import VariantChange.
Local Open Scope string_scope.
Local Open Scope list_scope.

Lemma every_option_prefix (o sel : list string) :
  every_option o sel = true <-> exists rest, sel = o ++ rest.
Proof.
  revert sel. induction o as [|x o IH]; intros sel; simpl.
  - split; [intros _; exists sel; reflexivity|reflexivity].
  - destruct sel as [|y sel].
    + split; [discriminate|intros [rest H]; discriminate H].
    + rewrite Bool.andb_true_iff, String.eqb_eq, IH. split.
      * intros [-> [rest ->]]. exists rest. reflexivity.
      * intros [rest H]. injection H as -> ->. split; [reflexivity|exists rest; reflexivity].
Qed.

Lemma find_first {A : Type} (f : A -> bool) (l : list A) (v : A) :
  find f l = Some v ->
  exists pre post, l = pre ++ v :: post /\ f v = true /\ forall w, In w pre -> f w = false.
Proof.
  induction l as [|x l IH]; simpl; [discriminate|].
  destruct (f x) eqn:E.
  - intros H. injection H as <-. exists [], l. split; [reflexivity|split; [exact E|intros w []]].
  - intros H. destruct (IH H) as (pre & post & -> & Hv & Hpre).
    exists (x :: pre), post. split; [reflexivity|split; [exact Hv|]].
    intros w [<-|Hw]; [exact E|exact (Hpre w Hw)].
Qed.

(** X8: when some variant's options start the list of checked values, the
    first such variant in the product's list becomes the current one, its id
    goes into the form's [id] input (when there is one) and into the
    [variant] parameter of the URL, its sections are requested and
    [product:variant-changed] is dispatched. *)
Theorem variant_change_first_prefix_match (variants : list variant)
    (fieldsets : list (option string)) (s : t) :
  (exists v rest, In v variants /\ selectedOptions fieldsets = options v ++ rest) ->
  exists pre v post rest,
    variants = pre ++ v :: post /\ selectedOptions fieldsets = options v ++ rest /\
    (forall w, In w pre -> forall rest', selectedOptions fieldsets <> options w ++ rest') /\
    let s' := handleVariantChange (Some variants) fieldsets s in
    currentVariant s' = Some v /\ idInput s' = option_map (fun _ => id v) (idInput s) /\
    FilterUrls.get "variant" (Url.query (location s')) = Some (id v) /\
    Url.path (location s') = Url.path (location s) /\
    renderCalls s' = renderCalls s ++ [id v] /\
    events s' = events s ++ ["product:variant-changed"].
Proof.
  intros (v0 & rest0 & Hin & Hsel).
  set (f := fun v => every_option (options v) (selectedOptions fieldsets)).
  destruct (find f variants) as [v|] eqn:Ef.
  - destruct (find_first f variants v Ef) as (pre & post & Hl & Hv & Hpre).
    apply every_option_prefix in Hv. destruct Hv as [rest Hrest].
    exists pre, v, post, rest. split; [exact Hl|split; [exact Hrest|split]].
    + intros w Hw rest' Hw'. pose proof (Hpre w Hw) as Hf. unfold f in Hf.
      rewrite Hw' in Hf. rewrite (proj2 (every_option_prefix (options w) (options w ++ rest'))) in Hf;
        [discriminate|exists rest'; reflexivity].
    + cbv zeta. unfold handleVariantChange. fold f. rewrite Ef. simpl.
      repeat split. rewrite UrlFacts.query_set. apply UrlGetFacts.get_set_in_same.
  - exfalso. pose proof (find_none f variants Ef v0 Hin) as H. unfold f in H.
    rewrite Hsel in H. rewrite (proj2 (every_option_prefix _ _)) in H;
      [discriminate|exists rest0; reflexivity].
Qed.

Lemma variant_change_first_prefix_match_witness :
  exists pre v post rest,
    [variant_mk "11" ["Red"; "S"]; variant_mk "12" ["Red"]] = pre ++ v :: post /\
    selectedOptions [Some "Red"; None; Some "S"] = options v ++ rest /\
    (forall w, In w pre -> forall rest', selectedOptions [Some "Red"; None; Some "S"] <> options w ++ rest') /\
    let s' := handleVariantChange (Some [variant_mk "11" ["Red"; "S"]; variant_mk "12" ["Red"]])
                [Some "Red"; None; Some "S"] (mk None (Some "10") (Url.mk "https://shop.example" "/products/tee" None None) [] []) in
    currentVariant s' = Some v /\ idInput s' = option_map (fun _ => id v) (Some "10") /\
    FilterUrls.get "variant" (Url.query (location s')) = Some (id v) /\
    Url.path (location s') = "/products/tee" /\
    renderCalls s' = [] ++ [id v] /\
    events s' = [] ++ ["product:variant-changed"].
Proof.
  apply (variant_change_first_prefix_match _ _ (mk None (Some "10") (Url.mk "https://shop.example" "/products/tee" None None) [] [])).
  exists (variant_mk "11" ["Red"; "S"]), []. split; [left; reflexivity|reflexivity].
Defined.

(** X9: when no variant's options start the list of checked values, a
    variant change does nothing: no current variant, input, URL, request or
    event changes. *)
Theorem variant_change_no_match (variants : list variant) (fieldsets : list (option string)) (s : t) :
  (forall v, In v variants -> forall rest, selectedOptions fieldsets <> options v ++ rest) ->
  handleVariantChange (Some variants) fieldsets s = s.
Proof.
  intros H. unfold handleVariantChange.
  destruct (find _ variants) as [v|] eqn:Ef; [|reflexivity].
  exfalso. destruct (find_some _ _ Ef) as [Hin Hv].
  apply every_option_prefix in Hv. destruct Hv as [rest Hr]. exact (H v Hin rest Hr).
Qed.

Lemma variant_change_no_match_witness :
  handleVariantChange (Some [variant_mk "11" ["Red"; "S"]]) [Some "Blue"; Some "S"]
    (mk None (Some "10") (Url.mk "https://shop.example" "/products/tee" None None) [] [])
  = mk None (Some "10") (Url.mk "https://shop.example" "/products/tee" None None) [] [].
Proof.
  apply variant_change_no_match. intros v [<-|[]] rest H. discriminate H.
Defined.

End VariantChangeFacts.

Module CartItemsUpdateFacts.
Import CartItemsUpdate.
Local Open Scope string_scope.
Local Open Scope list_scope.

(** X10: when the update fails (the request is rejected, the status is not
    a success, or the body cannot be read) no [cart:updated] event is
    dispatched, the content is kept, [is-loading] is removed and the error
    element, when there is one, is shown with a message. *)
Theorem update_failure_reported (netMsg parseMsg : string) (c : config) (key : string) (q : Z)
    (resp : Fetch.response (list (string * sectionHtml))) (s : t) :
  (resp = Fetch.NetworkError \/
   (exists status body, resp = Fetch.Http status body /\ Fetch.ok status = false) \/
   (exists status, resp = Fetch.Http status None)) ->
  let s' := updateItem netMsg parseMsg c key q resp s in
  events s' = events s /\ content s' = content s /\ loading s' = false /\
  requests s' = requests s ++ [(key, q, sectionId c)] /\
  (errorEl s = None -> errorEl s' = None) /\
  (forall a, errorEl s = Some a -> exists m, errorEl s' = Some (ProductForm.mkAlert m false)).
Proof.
  intros H. cbv zeta. unfold updateItem.
  assert (Hfail : exists m, updateItem netMsg parseMsg c key q resp s =
    mk false (option_map (fun _ => ProductForm.mkAlert m false) (errorEl s)) (content s)
       (events s) (requests s ++ [(key, q, sectionId c)])).
  { unfold updateItem. destruct H as [->|[(st & b & -> & Hok)|(st & ->)]].
    - exists netMsg. reflexivity.
    - exists "Failed to update cart". rewrite Hok. reflexivity.
    - destruct (Fetch.ok st); [exists parseMsg|exists "Failed to update cart"]; reflexivity. }
  fold (updateItem netMsg parseMsg c key q resp s).
  destruct Hfail as [m ->]. simpl.
  repeat split; [intros ->; reflexivity|intros a ->; exists m; reflexivity].
Qed.

Lemma update_failure_reported_witness :
  Fetch.ok 422 = false /\
  exists m, errorEl (updateItem "Failed to fetch" "Unexpected token" (cfg "main-cart" false) "k1" 3
             (Fetch.Http 422 (Some [])) (mk false (Some (ProductForm.mkAlert "" true)) [] [] []))
  = Some (ProductForm.mkAlert m false).
Proof.
  split; [reflexivity|].
  destruct (update_failure_reported "Failed to fetch" "Unexpected token" (cfg "main-cart" false) "k1" 3
              (Fetch.Http 422 (Some [])) (mk false (Some (ProductForm.mkAlert "" true)) [] [] [])
              (or_intror (or_introl (ex_intro _ 422 (ex_intro _ (Some []) (conj eq_refl eq_refl))))))
    as (_ & _ & _ & _ & _ & H).
  apply (H (ProductForm.mkAlert "" true)). reflexivity.
Defined.

(** X11: after a successful update [cart:updated] is dispatched once, and
    [is-loading] stays on exactly when the component sits inside the
    drawer or the response carries no HTML for its section. *)
Theorem update_success_loading (netMsg parseMsg : string) (c : config) (key : string) (q : Z)
    (status : Z) (sections : list (string * sectionHtml)) (s : t) :
  Fetch.ok status = true ->
  let s' := updateItem netMsg parseMsg c key q (Fetch.Http status (Some sections)) s in
  events s' = events s ++ ["cart:updated"] /\
  (loading s' = true <->
   insideDrawer c = true \/
   match lookup (sectionId c) sections with Some h => html h = "" | None => True end).
Proof.
  intros Hok. cbv zeta. unfold updateItem. rewrite Hok. simpl.
  destruct (insideDrawer c); simpl.
  - split; [reflexivity|split; [intros _; left; reflexivity|reflexivity]].
  - unfold renderFromSections. simpl.
    destruct (lookup (sectionId c) sections) as [h|]; simpl.
    + destruct (String.eqb_spec (html h) "").
      * split; [reflexivity|split; [intros _; right; exact e|reflexivity]].
      * destruct (cartItems h) as [[ci err]|]; simpl;
          (split; [reflexivity|split; [discriminate|intros [H|H]; [discriminate H|contradiction]]]).
    + split; [reflexivity|split; [intros _; right; exact I|reflexivity]].
Qed.

Lemma update_success_loading_witness :
  Fetch.ok 200 = true /\
  loading (updateItem "Failed to fetch" "Unexpected token" (cfg "main-cart" false) "k1" 3
             (Fetch.Http 200 (Some [("header", section_html "<p></p>" None)]))
             (mk false None [] [] []))
  = true.
Proof.
  split; [reflexivity|].
  apply (update_success_loading "Failed to fetch" "Unexpected token" (cfg "main-cart" false) "k1" 3
           200 [("header", section_html "<p></p>" None)] (mk false None [] [] []) eq_refl).
  right. exact I.
Defined.

End CartItemsUpdateFacts.

Module ItemAddedFacts.
Import CartDrawer CartDrawerItemAdded.
Local Open Scope nat_scope.

(** X12: when [refresh()] rejects (the request fails or the body cannot be
    read), the drawer is not opened: the overlay, its listeners and the
    focus are left as they were, and [is-loading] is removed. *)
Theorem item_added_rejected_not_opened (focusable : Overlay.elem -> bool) (hk : nat)
    (ff : option Overlay.elem) (resp : Fetch.response (option Dom.root)) (s : t) :
  (resp = Fetch.NetworkError \/ exists status, Fetch.ok status = true /\ resp = Fetch.Http status None) ->
  let s' := onItemAdded focusable hk ff resp s in
  ov s' = ov s /\ dom s' = dom s /\ loading s' = false /\ refreshes s' = S (refreshes s).
Proof.
  intros [->|(st & Hok & ->)]; cbv zeta; unfold onItemAdded; simpl.
  - repeat split.
  - rewrite Hok. simpl. repeat split.
Qed.

Lemma item_added_rejected_not_opened_witness :
  Overlay.isOpen (ov (onItemAdded (fun _ => true) 4 (Some 1) Fetch.NetworkError
                        (mk (Overlay.mk false [] None (Some 8)) false [] false 0)))
  = false.
Proof.
  destruct (item_added_rejected_not_opened (fun _ => true) 4 (Some 1) Fetch.NetworkError
              (mk (Overlay.mk false [] None (Some 8)) false [] false 0) (or_introl eq_refl))
    as [H _].
  rewrite H. reflexivity.
Defined.

(** X13: when [refresh()] resolves (also on a non-success status, which
    renders nothing) the drawer opens; a drawer marked stale fetches the cart
    a second time on opening, and is then no longer stale and still
    loading. *)
Theorem item_added_resolved_opens (focusable : Overlay.elem -> bool) (hk : nat)
    (ff : option Overlay.elem) (status : Z) (body : option (option Dom.root)) (s : t) :
  (Fetch.ok status = false \/ body <> None) ->
  let s' := onItemAdded focusable hk ff (Fetch.Http status body) s in
  Overlay.isOpen (ov s') = true /\ stale s' = false /\
  refreshes s' = refreshes s + (if stale s then 2 else 1) /\ loading s' = stale s.
Proof.
  intros H. cbv zeta. unfold onItemAdded, refresh_complete, refresh_start. simpl.
  assert (Hov : forall (s0 : t), Overlay.isOpen (Overlay.open focusable hk ff (ov s0)) = true).
  { intros s0. unfold Overlay.open. destruct ff as [f|]; [unfold Overlay.focus; destruct (focusable f)|];
      reflexivity. }
  destruct (Fetch.ok status) eqn:Ek; simpl.
  - destruct body as [nd|]; [|destruct H as [H|H]; [discriminate H|contradiction]].
    unfold open; simpl. destruct (stale s); cbn [ov stale refreshes loading];
      (split; [apply Hov|split; [reflexivity|split; [lia|reflexivity]]]).
  - unfold open; simpl. destruct (stale s); cbn [ov stale refreshes loading];
      (split; [apply Hov|split; [reflexivity|split; [lia|reflexivity]]]).
Qed.

Lemma item_added_resolved_opens_witness :
  refreshes (onItemAdded (fun _ => true) 4 (Some 1) (Fetch.Http 200 (Some None))
               (mk (Overlay.mk false [] None (Some 8)) true [] false 0))
  = 2.
Proof.
  assert (Hb : Fetch.ok 200 = false \/ Some (@None Dom.root) <> None) by (right; discriminate).
  pose proof (item_added_resolved_opens (fun _ => true) 4 (Some 1) 200 (Some None)
                (mk (Overlay.mk false [] None (Some 8)) true [] false 0) Hb) as H.
  cbv zeta in H. destruct H as (_ & _ & H & _). rewrite H. reflexivity.
Defined.

End ItemAddedFacts.

Module FilterUrlsFacts.
Import FilterUrls UrlGetFacts.
Local Open Scope string_scope.
Local Open Scope list_scope.

(** X14: submitting the filter form builds a URL under the form's action
    (its origin and path, no fragment). When the current URL has a
    non-empty [sort_by], its parameters are the form's entries other than
    [sort_by], in order and with repeated keys, and one [sort_by] with the
    current value; otherwise they are exactly the form's entries. *)
Theorem submit_keeps_sort (actionOrigin actionPath : string) (formData : list (string * string))
    (location : Url.url) :
  Url.origin (submitUrl actionOrigin actionPath formData location) = actionOrigin /\
  Url.path (submitUrl actionOrigin actionPath formData location) = actionPath /\
  Url.fragment (submitUrl actionOrigin actionPath formData location) = None /\
  (forall v, get "sort_by" (Url.query location) = Some v -> v <> "" ->
     filter (fun p => negb (String.eqb (fst p) "sort_by"))
       (Url.query (submitUrl actionOrigin actionPath formData location))
     = filter (fun p => negb (String.eqb (fst p) "sort_by")) formData /\
     filter (fun p => String.eqb (fst p) "sort_by")
       (Url.query (submitUrl actionOrigin actionPath formData location))
     = [("sort_by", v)]) /\
  (get "sort_by" (Url.query location) = None \/ get "sort_by" (Url.query location) = Some "" ->
   Url.query (submitUrl actionOrigin actionPath formData location) = formData).
Proof.
  assert (Hq : forall o p q, Url.query (Url.mk o p (Some (Url.serialize q)) None) = q)
    by (intros; apply UrlFacts.parse_serialize).
  unfold submitUrl. rewrite !Hq.
  split; [reflexivity|split; [reflexivity|split; [reflexivity|split]]].
  - intros v Hg Hv. rewrite Hg. apply String.eqb_neq in Hv. rewrite Hv.
    split; [apply UrlFacts.filter_set_in_other|apply UrlFacts.filter_set_in_same].
  - intros [Hg|Hg]; rewrite Hg; reflexivity.
Qed.

Lemma submit_keeps_sort_witness :
  filter (fun p => String.eqb (fst p) "sort_by")
    (Url.query (submitUrl "https://shop.example" "/collections/all"
                  [("filter.p.m.color", "Red"); ("sort_by", ""); ("filter.p.m.color", "Blue")]
                  (Url.mk "https://shop.example" "/collections/all"
                     (Some "sort_by=price-ascending") None)))
  = [("sort_by", "price-ascending")].
Proof.
  assert (Hv : "price-ascending" <> "") by discriminate.
  exact (proj2 (proj1 (proj2 (proj2 (proj2 (submit_keeps_sort "https://shop.example" "/collections/all"
           [("filter.p.m.color", "Red"); ("sort_by", ""); ("filter.p.m.color", "Blue")]
           (Url.mk "https://shop.example" "/collections/all" (Some "sort_by=price-ascending") None)))))
           "price-ascending" eq_refl Hv)).
Defined.

(** X15: changing the sort select keeps the current URL's origin, path and
    fragment and every parameter other than [sort_by], in order and with
    repeated keys, and leaves one [sort_by], with the selected option's
    [sort_by], or the string [null] when it has none. *)
Theorem sort_url_keeps_params (location selectValue : Url.url) :
  Url.origin (sortUrl location selectValue) = Url.origin location /\
  Url.path (sortUrl location selectValue) = Url.path location /\
  Url.fragment (sortUrl location selectValue) = Url.fragment location /\
  filter (fun p => negb (String.eqb (fst p) "sort_by")) (Url.query (sortUrl location selectValue))
  = filter (fun p => negb (String.eqb (fst p) "sort_by")) (Url.query location) /\
  filter (fun p => String.eqb (fst p) "sort_by") (Url.query (sortUrl location selectValue))
  = [("sort_by", match get "sort_by" (Url.query selectValue) with
                 | Some v => v | None => "null" end)].
Proof.
  unfold sortUrl. rewrite !UrlFacts.query_set.
  split; [reflexivity|split; [reflexivity|split; [reflexivity|split]]].
  - apply UrlFacts.filter_set_in_other.
  - apply UrlFacts.filter_set_in_same.
Qed.

End FilterUrlsFacts.

Module NewsletterPopupFacts.
Import NewsletterPopup.
Local Open Scope string_scope.
Local Open Scope list_scope.

Lemma getItem_setItem (k v : string) (st : list (string * string)) :
  getItem k (setItem k v st) = Some v.
Proof.
  unfold getItem. induction st as [|[a w] st IH]; simpl; [rewrite String.eqb_refl; reflexivity|].
  destruct (String.eqb a k) eqn:E; simpl; [rewrite String.eqb_refl; reflexivity|].
  rewrite E. exact IH.
Qed.

(** X16: after [dismiss()], the session storage holds the dismissal, and
    the popup of a later page in the session, a new element with no timer
    and not visible, schedules nothing when connected and stays hidden,
    whatever its [data-delay]. *)
Theorem dismissed_not_rescheduled (delayAttr : number) (s : t) :
  getItem KEY (storage (dismiss s)) = Some "1" /\
  connected delayAttr (mk (storage (dismiss s)) None false) = mk (storage (dismiss s)) None false.
Proof.
  split; [apply getItem_setItem|].
  unfold connected. simpl. rewrite getItem_setItem. reflexivity.
Qed.

(** X17: a popup not dismissed in the session schedules [show()] after a
    delay between 0 and 2^31 - 1 ms, and after exactly 5000 ms when
    [data-delay] parses to NaN or 0, or to an integer congruent to 5000
    modulo 2^32 (such as 4294972296), and only then. *)
Theorem popup_default_delay (delayAttr : number) (s : t) :
  getItem KEY (storage s) = None ->
  (timer (connected delayAttr s) = Some 5000 <->
   delayAttr = NaN \/ delayAttr = Num 0 \/ exists z, delayAttr = Num z /\ z mod 2 ^ 32 = 5000) /\
  (forall w, timer (connected delayAttr s) = Some w -> 0 <= w <= 2 ^ 31 - 1).
Proof.
  intros H. unfold connected. rewrite H. simpl.
  assert (Hb : forall x, 0 <= timer_delay x <= 2 ^ 31 - 1).
  { intros [|z| |]; simpl; try lia. unfold toInt32.
    pose proof (Z.mod_pos_bound z (2 ^ 32) ltac:(lia)) as Hm.
    destruct (Z.leb (2 ^ 31) (z mod 2 ^ 32)) eqn:E;
      [apply Z.leb_le in E|apply Z.leb_gt in E]; lia. }
  split; [|intros w Hw; injection Hw as <-; apply Hb].
  assert (Hn : forall z, z <> 0 -> (timer_delay (Num z) = 5000 <-> z mod 2 ^ 32 = 5000)).
  { intros z Hz. simpl. unfold toInt32.
    pose proof (Z.mod_pos_bound z (2 ^ 32) ltac:(lia)) as Hm.
    destruct (Z.leb (2 ^ 31) (z mod 2 ^ 32)) eqn:E;
      [apply Z.leb_le in E|apply Z.leb_gt in E]; lia. }
  destruct delayAttr as [|z| |]; simpl.
  - split; [intros _; left; reflexivity|reflexivity].
  - destruct (Z.eqb_spec z 0) as [->|Hz].
    + split; [intros _; right; left; reflexivity|reflexivity].
    + split.
      * intro E. injection E as E. right; right. exists z. split; [reflexivity|].
        apply (Hn z Hz). exact E.
      * intros [E|[E|(z' & E & Hm)]]; [discriminate E|injection E as E; contradiction|].
        injection E as <-. f_equal. apply (Hn z Hz). exact Hm.
  - split; [intro E; discriminate E|intros [E|[E|(z' & E & _)]]; discriminate E].
  - split; [intro E; discriminate E|intros [E|[E|(z' & E & _)]]; discriminate E].
Qed.

(** [data-delay="4294972296"], 2^32 + 5000. *)
Lemma popup_default_delay_witness :
  timer (connected (Num 4294972296) (mk [] None false)) = Some 5000.
Proof.
  apply (proj1 (popup_default_delay (Num 4294972296) (mk [] None false) eq_refl)).
  right; right. exists 4294972296. split; [reflexivity|reflexivity].
Defined.

End NewsletterPopupFacts.
